(** * Virtual Number Reseller: wallet, top-up callback and buy flow

    A shallow embedding of the Express routes of the backend
    ([src/routes/topup.js], [src/routes/orders.js], [src/routes/admin.js])
    over the four tables of [src/models/migrations.sql].

    Each route handler is an [async] function: a sequence of awaited calls
    (SQL statements sent to the shared Postgres client, HTTP calls to the
    payment gateway or to an SMS provider) that ends by sending a response or
    by throwing.  The embedding keeps that shape: a handler is a tree of
    awaited effects ([Handler]), the database is an explicit state ([Db]),
    and two semantics are given, one that runs a handler to completion and
    one that interleaves two handlers at their [await] points.

    The register and login routes of [src/routes/auth.js] touch neither a
    balance nor a top-up nor an order; they are modelled apart, in [Auth],
    with the password hashes and the id sequence of [users] that only they
    use. *)

From stdpp Require Import gmap strings list fin_maps.
From Stdlib Require Import ZArith Lia Ascii String.

Local Open Scope Z_scope.

(** ** Tables of [migrations.sql]

    NUMERIC amounts are fixed-point decimals; they are counted here in minor
    units, as integers.  Columns that no modelled route reads or writes
    (phone, password_hash, created_at) are left out.  Amounts, prices and
    balances are never NULL: the routes write them from a value or leave the
    column default, and the only arithmetic on them is NUMERIC addition and
    subtraction, which is exact. *)

Record User := mkUser {
  email : string;
  role : string;
  wallet_balance : Z
}.

Record Service := mkService {
  s_code : string;
  s_name : string;
  s_provider : string;
  s_provider_cost : Z;
  s_price : Z;
  s_active : bool
}.

Record Topup := mkTopup {
  t_user_id : option Z;
  t_amount : Z;
  t_tx_ref : option string;
  t_status : string
}.

Record Order := mkOrder {
  o_user_id : Z;
  o_service_id : Z;
  o_provider : string;
  o_provider_order_id : option string;
  o_virtual_number : option string;
  o_sms_code : option string;
  o_status : string
}.

(** The database: one finite map per table, keyed by the SERIAL primary key,
    and the two sequences the modelled INSERTs draw from. *)
Record Db := mkDb {
  users : gmap Z User;
  services : gmap Z Service;
  topups : gmap Z Topup;
  orders : gmap Z Order;
  topups_id_seq : Z;
  orders_id_seq : Z
}.

Definition set_users (f : gmap Z User -> gmap Z User) (db : Db) : Db :=
  mkDb (f (users db)) (services db) (topups db) (orders db)
       (topups_id_seq db) (orders_id_seq db).

Definition set_services (f : gmap Z Service -> gmap Z Service) (db : Db) : Db :=
  mkDb (users db) (f (services db)) (topups db) (orders db)
       (topups_id_seq db) (orders_id_seq db).

Definition set_topups (f : gmap Z Topup -> gmap Z Topup) (db : Db) : Db :=
  mkDb (users db) (services db) (f (topups db)) (orders db)
       (topups_id_seq db) (orders_id_seq db).

Definition set_orders (f : gmap Z Order -> gmap Z Order) (db : Db) : Db :=
  mkDb (users db) (services db) (topups db) (f (orders db))
       (topups_id_seq db) (orders_id_seq db).

Definition balance (db : Db) (uid : Z) : option Z :=
  wallet_balance <$> users db !! uid.

Definition add_balance (d : Z) (u : User) : User :=
  mkUser (email u) (role u) (wallet_balance u + d).

Definition with_status (st : string) (t : Topup) : Topup :=
  mkTopup (t_user_id t) (t_amount t) (t_tx_ref t) st.

Definition with_price (p : Z) (s : Service) : Service :=
  mkService (s_code s) (s_name s) (s_provider s) (s_provider_cost s) p (s_active s).

(** ** JavaScript string helpers used by the callback *)

Module Js.

Fixpoint drop (n : nat) (s : string) : string :=
  match n, s with
  | O, _ => s
  | S n', String _ s' => drop n' s'
  | S _, EmptyString => EmptyString
  end.

(** [s.replace(pat, rep)] with a string pattern: the first occurrence only. *)
Fixpoint replace (pat rep s : string) : string :=
  if String.prefix pat s then (rep +:+ drop (String.length pat) s)%string
  else match s with
       | EmptyString => EmptyString
       | String c s' => String c (replace pat rep s')
       end.

Definition is_space (c : ascii) : bool :=
  let n := nat_of_ascii c in
  ((9 <=? n) && (n <=? 13) || (n =? 32))%nat.

Fixpoint trim_start (s : string) : string :=
  match s with
  | String c s' => if is_space c then trim_start s' else s
  | EmptyString => EmptyString
  end.

(** Value of a digit in the given radix, if it is one. *)
Definition digit (radix : Z) (c : ascii) : option Z :=
  let n := Z.of_nat (nat_of_ascii c) in
  let v := if (48 <=? n) && (n <=? 57) then Some (n - 48)
           else if (97 <=? n) && (n <=? 122) then Some (n - 87)
           else if (65 <=? n) && (n <=? 90) then Some (n - 55)
           else None in
  match v with
  | Some d => if d <? radix then Some d else None
  | None => None
  end.

(** Longest prefix of digits, accumulated left to right; [None] when the
    string does not start with a digit. *)
Fixpoint digits (radix : Z) (acc : option Z) (s : string) : option Z :=
  match s with
  | String c s' =>
      match digit radix c with
      | Some d => digits radix (Some (radix * default 0 acc + d)) s'
      | None => acc
      end
  | EmptyString => acc
  end.

Definition strip_sign (s : string) : Z * string :=
  match s with
  | String "-" s' => (-1, s')
  | String "+" s' => (1, s')
  | _ => (1, s)
  end.

Definition strip_radix (s : string) : Z * string :=
  match s with
  | String "0" (String "x" s') => (16, s')
  | String "0" (String "X" s') => (16, s')
  | _ => (10, s)
  end.

(** [parseInt(s)] without a radix argument; [None] is NaN. *)
Definition parseInt (s : string) : option Z :=
  let '(sign, s1) := strip_sign (trim_start s) in
  let '(radix, s2) := strip_radix s1 in
  Z.mul sign <$> digits radix None s2.

(** [parseFloat] is applied by the buy route to the decimal strings the
    driver returns for NUMERIC columns, and the two doubles are compared
    with [<].  Rounding to a double is monotone, and decimals of up to 15
    significant digits round to distinct doubles, so on such amounts the
    comparison of the doubles is the comparison of the amounts: on amounts
    counted in minor units the conversion is the identity. *)
Definition parseFloat (x : Z) : Z := x.

(** [a || b] on optional strings: the empty string and undefined are falsy. *)
Definition truthy (v : option string) : bool :=
  match v with
  | Some s => negb (String.eqb s "")
  | None => false
  end.

Definition or (a b : option string) : option string :=
  if truthy a then a else b.

End Js.

(** ** Requests, responses and the outside world

    The ids carried by a request body or a route parameter are INTEGER
    values, the type of the columns they are compared with. *)

Module Create.
Record Body := mk { amount : Z; user_id : option Z }.
End Create.

Module Callback.
(** The handler destructures [billExternalReferenceNo], [status] and
    [amount] from the body; [signature] is the field by which the gateway
    authenticates the event. *)
Record Body := mk {
  billExternalReferenceNo : string;
  status : string;
  amount : Z;
  signature : string
}.
End Callback.

Module Buy.
Record Body := mk { user_id : Z; service_id : Z }.
End Buy.

Module SetPrice.
Record Request := mk { id : Z; price : Z }.
End SetPrice.

(** The two provider wrapper modules, [services/cyberyozh.js] and
    [services/grizzlysms.js]. *)
Inductive Provider := cyber | grizzly.

(** [resp.data] of a provider's [orderNumber]: the fields the buy route
    reads, [order_id], [id] and [number], each possibly undefined. *)
Record ProviderResult := mkProviderResult {
  order_id : option string;
  provider_id : option string;
  number : option string
}.

Inductive Body :=
| Text (s : string)
| JsonError (error : string)
| JsonPayment (payment_url : option string) (topupId : Z)
| JsonOrder (order_id : Z) (provider : ProviderResult)
| JsonOk.

Record Response := mkResponse { res_status : Z; res_body : Body }.

(** What the network answers while one request is served.  [None] is a
    rejected call (network error, non-2xx answer, or a null body that the
    handler dereferences): the awaiting handler throws. *)
Record Upstream := mkUpstream {
  createBill : Z -> Z -> option (option string);
  orderNumber : Provider -> string -> option ProviderResult
}.

(** ** Awaited effects

    One constructor per SQL statement of the routes, in the order of their
    parameters, and one per outgoing HTTP call. *)
Inductive Effect :=
(* INSERT INTO topups(user_id, amount, status) VALUES($1,$2,$3) RETURNING id *)
| InsertTopup (user_id : option Z) (amount : Z) (status : string)
(* UPDATE topups SET status=$1 WHERE id=$2 *)
| UpdateTopupStatus (status : string) (id : option Z)
(* SELECT user_id, amount FROM topups WHERE id=$1 *)
| SelectTopup (id : option Z)
(* UPDATE users SET wallet_balance = wallet_balance + $1 WHERE id=$2 *)
| CreditWallet (amount : Z) (user_id : option Z)
(* SELECT * FROM services WHERE id=$1 *)
| SelectService (id : Z)
(* SELECT wallet_balance FROM users WHERE id=$1 *)
| SelectWalletBalance (user_id : Z)
(* INSERT INTO orders(user_id, service_id, provider, provider_order_id,
   virtual_number, status) VALUES($1,$2,$3,$4,$5,$6) RETURNING id *)
| InsertOrder (user_id service_id : Z) (provider : string)
              (provider_order_id virtual_number : option string) (status : string)
(* UPDATE users SET wallet_balance = wallet_balance - $1 WHERE id=$2 *)
| DebitWallet (price : Z) (user_id : Z)
(* UPDATE services SET price=$1 WHERE id=$2 *)
| UpdateServicePrice (price : Z) (id : Z)
(* axios.post(.../index.php/api/createBill, payload) *)
| CreateBill (billPrice : Z) (topupId : Z)
(* cyber.orderNumber(service.code) or grizzly.orderNumber(service.code) *)
| OrderNumber (p : Provider) (serviceCode : string).

(** What the awaited call resolves to: [rows[0]] of a SELECT (absent when no
    row matches), the RETURNING id of an INSERT, [resp.data] of an HTTP call. *)
Definition reply (e : Effect) : Type :=
  match e with
  | InsertTopup _ _ _ => Z
  | UpdateTopupStatus _ _ => unit
  | SelectTopup _ => option (option Z * Z)
  | CreditWallet _ _ => unit
  | SelectService _ => option Service
  | SelectWalletBalance _ => option Z
  | InsertOrder _ _ _ _ _ _ => Z
  | DebitWallet _ _ => unit
  | UpdateServicePrice _ _ => unit
  | CreateBill _ _ => option string
  | OrderNumber _ _ => ProviderResult
  end.

(** An async route handler: it sends a response, throws (the promise of the
    handler rejects and no response is sent), or awaits an effect and goes on
    with what it resolved to. *)
Inductive Handler :=
| Send (status : Z) (body : Body)
| Throw
| Await (e : Effect) (k : reply e -> Handler).

Notation "'await!' x ':=' e 'in' k" := (Await e (fun x => k))
  (at level 10, x name, e at level 100, k at level 200).

(** ** The routes *)

(** [POST /api/topup/create] *)
Definition topup_create (req : Create.Body) : Handler :=
  await! topupId := InsertTopup (Create.user_id req) (Create.amount req) "pending" in
  await! url := CreateBill (Create.amount req) topupId in
  Send 200 (JsonPayment url topupId).

(** [POST /api/topup/callback] *)
Definition topup_callback (req : Callback.Body) : Handler :=
  let topupId :=
    Js.parseInt (Js.replace "topup_" "" (Callback.billExternalReferenceNo req)) in
  if String.eqb (Callback.status req) "PAID" then
    await! _ := UpdateTopupStatus "paid" topupId in
    await! topup := SelectTopup topupId in
    match topup with
    | None => Throw
    | Some (user_id, amount) =>
        await! _ := CreditWallet amount user_id in
        Send 200 (Text "OK")
    end
  else Send 200 (Text "OK").

(** [POST /api/orders/buy] *)
Definition orders_buy (req : Buy.Body) : Handler :=
  await! s := SelectService (Buy.service_id req) in
  match s with
  | None => Send 400 (JsonError "service not found")
  | Some service =>
      await! u := SelectWalletBalance (Buy.user_id req) in
      match u with
      | None => Throw
      | Some wallet_balance =>
          if Js.parseFloat wallet_balance <? Js.parseFloat (s_price service)
          then Send 402 (JsonError "insufficient balance")
          else
            await! providerResult :=
              OrderNumber (if String.eqb (s_provider service) "CyberYozh"
                           then cyber else grizzly) (s_code service) in
            await! ins :=
              InsertOrder (Buy.user_id req) (Buy.service_id req)
                (s_provider service)
                (Js.or (order_id providerResult) (provider_id providerResult))
                (Js.or (number providerResult) None)
                "waiting" in
            await! _ := DebitWallet (s_price service) (Buy.user_id req) in
            Send 200 (JsonOrder ins providerResult)
      end
  end.

(** [POST /api/admin/service/:id/price] *)
Definition admin_set_price (req : SetPrice.Request) : Handler :=
  await! _ := UpdateServicePrice (SetPrice.price req) (SetPrice.id req) in
  Send 200 JsonOk.

(** ** Executing one awaited effect

    The result is what the call resolves to ([None] when it rejects) and the
    database after it.  A statement is atomic; nothing else is. *)

(** A parameter compared with an INTEGER column: NaN and values outside the
    range of the type make the statement fail. *)
Definition pg_integer (v : option Z) : option Z :=
  match v with
  | Some z => if (-2147483648 <=? z) && (z <=? 2147483647) then Some z else None
  | None => None
  end.

(** A nullable foreign key into [users]. *)
Definition fk_user (db : Db) (uid : option Z) : bool :=
  match uid with
  | Some u => bool_decide (is_Some (users db !! u))
  | None => true
  end.

Definition exec (up : Upstream) (e : Effect) (db : Db) : option (reply e) * Db :=
  match e return option (reply e) * Db with
  | InsertTopup uid amt st =>
      let id := topups_id_seq db + 1 in
      let db1 := mkDb (users db) (services db) (topups db) (orders db)
                      id (orders_id_seq db) in
      if fk_user db uid && bool_decide (topups db !! id = None)
      then (Some id, set_topups <[id := mkTopup uid amt None st]> db1)
      else (None, db1)
  | UpdateTopupStatus st id =>
      match pg_integer id with
      | Some i => (Some tt, set_topups (alter (with_status st) i) db)
      | None => (None, db)
      end
  | SelectTopup id =>
      match pg_integer id with
      | Some i => (Some ((fun t => (t_user_id t, t_amount t)) <$> topups db !! i), db)
      | None => (None, db)
      end
  | CreditWallet amt uid =>
      match uid with
      | Some u => (Some tt, set_users (alter (add_balance amt) u) db)
      | None => (Some tt, db)
      end
  | SelectService id => (Some (services db !! id), db)
  | SelectWalletBalance uid => (Some (balance db uid), db)
  | InsertOrder uid sid prov poid vnum st =>
      let id := orders_id_seq db + 1 in
      let db1 := mkDb (users db) (services db) (topups db) (orders db)
                      (topups_id_seq db) id in
      if fk_user db (Some uid) && bool_decide (is_Some (services db !! sid))
         && bool_decide (orders db !! id = None)
      then (Some id, set_orders <[id := mkOrder uid sid prov poid vnum None st]> db1)
      else (None, db1)
  | DebitWallet p uid => (Some tt, set_users (alter (add_balance (- p)) uid) db)
  | UpdateServicePrice p id => (Some tt, set_services (alter (with_price p) id) db)
  | CreateBill p t => (createBill up p t, db)
  | OrderNumber p c => (orderNumber up p c, db)
  end.

(** ** Running one handler to completion *)

Record Outcome := mkOutcome {
  response : option Response;   (* [None]: the handler threw *)
  final : Db;
  trace : list Effect           (* the awaited calls, in the order made *)
}.

Fixpoint run (up : Upstream) (h : Handler) (db : Db) : Outcome :=
  match h with
  | Send st b => mkOutcome (Some (mkResponse st b)) db []
  | Throw => mkOutcome None db []
  | Await e k =>
      match exec up e db with
      | (Some a, db') =>
          let o := run up (k a) db' in
          mkOutcome (response o) (final o) (e :: trace o)
      | (None, db') => mkOutcome None db' [e]
      end
  end.

(** ** Interleaving two handlers

    Node runs one handler at a time but switches between pending requests at
    every [await].  A schedule says which of two requests makes the next
    step; a step performs the awaited effect at the head of the handler. *)

Definition step (up : Upstream) (h : Handler) (db : Db) : Handler * Db :=
  match h with
  | Await e k =>
      match exec up e db with
      | (Some a, db') => (k a, db')
      | (None, db') => (Throw, db')
      end
  | _ => (h, db)
  end.

Fixpoint interleave (sched : list bool) (upA upB : Upstream)
    (hA hB : Handler) (db : Db) : Handler * Handler * Db :=
  match sched with
  | [] => (hA, hB, db)
  | true :: sched' =>
      let '(hA', db') := step upA hA db in interleave sched' upA upB hA' hB db'
  | false :: sched' =>
      let '(hB', db') := step upB hB db in interleave sched' upA upB hA hB' db'
  end.

Definition finished (h : Handler) : bool :=
  match h with Await _ _ => false | _ => true end.


(** ** Requests served one after the other *)

Inductive Request :=
| TopupCreate (body : Create.Body)
| TopupCallback (body : Callback.Body)
| OrdersBuy (body : Buy.Body)
| AdminSetPrice (req : SetPrice.Request).

Definition route (r : Request) : Handler :=
  match r with
  | TopupCreate b => topup_create b
  | TopupCallback b => topup_callback b
  | OrdersBuy b => orders_buy b
  | AdminSetPrice q => admin_set_price q
  end.

(** A request together with what the network answers while it is served. *)
Definition serve (c : Upstream * Request) (db : Db) : Outcome :=
  run (fst c) (route (snd c)) db.

Fixpoint serve_all (cs : list (Upstream * Request)) (db : Db) : Db :=
  match cs with
  | [] => db
  | c :: cs' => serve_all cs' (final (serve c db))
  end.

(** The calls awaited while a list of requests is served. *)
Fixpoint trace_all (cs : list (Upstream * Request)) (db : Db) : list Effect :=
  match cs with
  | [] => []
  | c :: cs' => trace (serve c db) ++ trace_all cs' (final (serve c db))
  end.


(** The same confirmation event delivered [n] times. *)
Fixpoint deliver (n : nat) (up : Upstream) (ev : Callback.Body) (db : Db) : Db :=
  match n with
  | O => db
  | S n' => deliver n' up ev (final (run up (topup_callback ev) db))
  end.

(** ** Vocabulary of the statements *)

(** The top-up an external reference designates: the row whose id the
    callback parses out of the reference. *)
Definition referenced (db : Db) (ref : string) : option (Z * Topup) :=
  match pg_integer (Js.parseInt (Js.replace "topup_" "" ref)) with
  | Some i => (fun t => (i, t)) <$> topups db !! i
  | None => None
  end.

Definition ok : Response := mkResponse 200 (Text "OK").

Definition insufficient : Response :=
  mkResponse 402 (JsonError "insufficient balance").


Definition success (r : option Response) : bool :=
  match r with
  | Some x => (200 <=? res_status x) && (res_status x <? 300)
  | None => false
  end.

(** The amount by which an awaited statement changes the balance of [uid]. *)
Definition delta (uid : Z) (e : Effect) : Z :=
  match e with
  | CreditWallet amt (Some u) => if decide (u = uid) then amt else 0
  | DebitWallet p u => if decide (u = uid) then - p else 0
  | _ => 0
  end.

Definition sum_deltas (uid : Z) (t : list Effect) : Z :=
  foldr (fun e s => delta uid e + s) 0 t.

Definition is_provider_call (e : Effect) : bool :=
  match e with OrderNumber _ _ => true | _ => false end.

Definition is_debit (e : Effect) : bool :=
  match e with DebitWallet _ _ => true | _ => false end.

(** The calls made before the first provider call. *)
Fixpoint before_provider (t : list Effect) : list Effect :=
  match t with
  | [] => []
  | e :: t' => if is_provider_call e then [] else e :: before_provider t'
  end.



(** The provider the buy route calls for a service. *)
Definition provider_of (s : Service) : Provider :=
  if String.eqb (s_provider s) "CyberYozh" then cyber else grizzly.

(** The order row the buy route inserts. *)
Definition order_row (req : Buy.Body) (s : Service) (r : ProviderResult) : Order :=
  mkOrder (Buy.user_id req) (Buy.service_id req) (s_provider s)
          (Js.or (order_id r) (provider_id r)) (Js.or (number r) None)
          None "waiting".

(** The database after a paid confirmation of top-up [i] has been applied. *)
Definition confirmed (i : Z) (t : Topup) (db : Db) : Db :=
  let db1 := set_topups (alter (with_status "paid") i) db in
  match t_user_id t with
  | Some u => set_users (alter (add_balance (t_amount t)) u) db1
  | None => db1
  end.

(** The database after a purchase has gone through. *)
Definition placed (req : Buy.Body) (s : Service) (r : ProviderResult) (db : Db) : Db :=
  let id := orders_id_seq db + 1 in
  set_users (alter (add_balance (- s_price s)) (Buy.user_id req))
    (mkDb (users db) (services db) (topups db)
          (<[id := order_row req s r]> (orders db))
          (topups_id_seq db) id).

(** Everything the database stores apart from the balances. *)
Definition erase_balances (db : Db) : Db :=
  set_users (fmap (fun u => mkUser (email u) (role u) 0)) db.



(** ** Sample data for the concrete runs *)

Definition answering : Upstream :=
  mkUpstream (fun _ _ => Some (Some "https://toyyibpay.com/bill"%string))
             (fun _ _ => Some (mkProviderResult (Some "o1"%string) None
                                                (Some "+60123456789"%string))).

Definition failing : Upstream :=
  mkUpstream (fun _ _ => None) (fun _ _ => None).

(** One user with balance 10.00, one service priced 10.00, one pending
    top-up of 20.00 for that user. *)
Definition shop : Db :=
  mkDb {[ 1 := mkUser "a@example.com" "user" 1000 ]}
       {[ 7 := mkService "telegram" "Telegram" "Grizzly" 300 1000 true ]}
       {[ 1 := mkTopup (Some 1) 2000 None "pending" ]}
       ∅ 1 0.

Definition paid_event : Callback.Body :=
  Callback.mk "topup_1" "PAID" 2000 "forged".

Definition failed_unknown_event : Callback.Body :=
  Callback.mk "topup_99" "FAILED" 2000 "s".

Definition buy_telegram : Buy.Body := Buy.mk 1 7.

(** Two buy requests that take turns at every [await]. *)
Definition alternating : list bool :=
  [true; false; true; false; true; false; true; false; true; false].

(** ** Numbers in template literals

    The create route writes the id of the new top-up into the reference of
    the bill with a template literal; a JavaScript number that is an integer
    below 10^21 in magnitude is printed in decimal. *)

Module JsNumber.

Definition digit_char (d : Z) : ascii := ascii_of_nat (48 + Z.to_nat d).

(** The decimal digits of a natural number [n], least significant first,
    pushed in front of [rest]. *)
Fixpoint decimal (fuel : nat) (n : Z) (rest : string) : string :=
  match fuel with
  | O => rest
  | S f =>
      let rest' := String (digit_char (n mod 10)) rest in
      if n <? 10 then rest' else decimal f (n / 10) rest'
  end.

(** One step per binary digit is more than the decimal digits need. *)
Definition fuel (n : Z) : nat := S (Z.to_nat (Z.log2 n)).

Definition toString (z : Z) : string :=
  if z <? 0 then String "-" (decimal (fuel (- z)) (- z) "")
  else decimal (fuel z) z "".

End JsNumber.

(** [billExternalReferenceNo: `topup_${topupId}`] of the create payload. *)
Definition bill_external_reference (topupId : Z) : string :=
  ("topup_" +:+ JsNumber.toString topupId)%string.

(** Where [parseInt] stops reading decimal digits: at the end of the string,
    or at a character that is no decimal digit and does not turn a leading
    zero into a hexadecimal prefix. *)
Definition stops_decimal (rest : string) : Prop :=
  match rest with
  | EmptyString => True
  | String c _ => Js.digit 10 c = None /\ c <> "x"%char /\ c <> "X"%char
  end.

(** ** Vocabulary of the further statements *)

(** The database after the create route has stored its pending top-up. *)
Definition created (req : Create.Body) (db : Db) : Db :=
  let id := topups_id_seq db + 1 in
  mkDb (users db) (services db)
       (<[id := mkTopup (Create.user_id req) (Create.amount req) None "pending"]>
          (topups db))
       (orders db) id (orders_id_seq db).

(** The range of the INTEGER type of the id columns. *)
Definition int4 (z : Z) : Prop := -2147483648 <= z <= 2147483647.

(** The statuses the routes write: a top-up is inserted pending and updated
    to paid, an order is inserted waiting. *)
Definition writes_known_status (e : Effect) : Prop :=
  match e with
  | InsertTopup _ _ st => st = "pending"%string
  | UpdateTopupStatus st _ => st = "paid"%string
  | InsertOrder _ _ _ _ _ st => st = "waiting"%string
  | _ => True
  end.

(** Every stored row has an id the sequence of its table has already
    handed out. *)
Definition ids_below_seq (db : Db) : Prop :=
  (forall i, is_Some (topups db !! i) -> i <= topups_id_seq db)
  /\ (forall i, is_Some (orders db !! i) -> i <= orders_id_seq db).

(** The call a handler is waiting to make. *)
Definition awaited (h : Handler) : list Effect :=
  match h with
  | Await e _ => [e]
  | _ => []
  end.

(** The calls made, in order, while two handlers are interleaved. *)
Fixpoint interleave_trace (sched : list bool) (upA upB : Upstream)
    (hA hB : Handler) (db : Db) : list Effect :=
  match sched with
  | [] => []
  | true :: sched' =>
      awaited hA ++
      (let '(hA', db') := step upA hA db in interleave_trace sched' upA upB hA' hB db')
  | false :: sched' =>
      awaited hB ++
      (let '(hB', db') := step upB hB db in interleave_trace sched' upA upB hA hB' db')
  end.

(** ** The auth routes, [src/routes/auth.js] *)

Module Auth.

Module Register.
Record Body := mk { email : string; phone : option string; password : string }.
End Register.

Module Login.
Record Body := mk { email : string; password : string }.
End Login.

(** What the two libraries answer while one request is served:
    [bcrypt.hash(password, 10)], [bcrypt.compare(password, hash)] and
    [jwt.sign({id, role}, process.env.JWT_SECRET)].  [None] is a rejected or
    throwing call. *)
Record Crypto := mkCrypto {
  bcrypt_hash : string -> option string;
  bcrypt_compare : string -> string -> option bool;
  jwt_sign : Z -> string -> option string
}.

(** The database together with what only the auth routes use of the
    [users] table: the password_hash column and the id sequence. *)
Record Accounts := mkAccounts {
  db : Db;
  password_hash : gmap Z string;
  users_id_seq : Z
}.

Inductive Reply :=
| JsonUser (id : Z) (email : string)
| JsonToken (token : string)
| Unauthorized (error : string).

(** [rows[0]] of [SELECT * FROM users WHERE email=$1]. *)
Definition find_by_email (e : string) (us : gmap Z User) : option (Z * User) :=
  head (filter (fun p => email p.2 = e) (map_to_list us)).

(** [POST /api/auth/register]: the INSERT names email, phone and
    password_hash; role and wallet_balance take the column defaults. *)
Definition register (c : Crypto) (req : Register.Body) (a : Accounts)
    : option Reply * Accounts :=
  match bcrypt_hash c (Register.password req) with
  | None => (None, a)
  | Some hash =>
      let id := users_id_seq a + 1 in
      if bool_decide (find_by_email (Register.email req) (users (db a)) = None)
         && bool_decide (users (db a) !! id = None)
      then (Some (JsonUser id (Register.email req)),
            mkAccounts
              (set_users <[id := mkUser (Register.email req) "user" 0]> (db a))
              (<[id := hash]> (password_hash a)) id)
      else (None, mkAccounts (db a) (password_hash a) id)
  end.

(** [POST /api/auth/login]; it writes nothing. *)
Definition login (c : Crypto) (req : Login.Body) (a : Accounts) : option Reply :=
  match find_by_email (Login.email req) (users (db a)) with
  | None => Some (Unauthorized "user not found")
  | Some (id, user) =>
      match password_hash a !! id with
      | None => None
      | Some hash =>
          match bcrypt_compare c (Login.password req) hash with
          | None => None
          | Some false => Some (Unauthorized "wrong password")
          | Some true => JsonToken <$> jwt_sign c id (role user)
          end
      end
  end.

End Auth.

(** The UNIQUE constraint on [users.email]. *)
Definition unique_emails (us : gmap Z User) : Prop :=
  forall i j u v, us !! i = Some u -> us !! j = Some v -> email u = email v -> i = j.

(** A library that hashes every password to ["$2b$10$h"], accepts only the
    password ["secret"] and signs tokens of the form role. *)
Definition sample_crypto : Auth.Crypto :=
  Auth.mkCrypto (fun _ => Some "$2b$10$h"%string)
                (fun p _ => Some (String.eqb p "secret"))
                (fun _ r => Some r).

Definition sample_accounts : Auth.Accounts :=
  Auth.mkAccounts shop {[ 1 := "$2b$10$old"%string ]} 1.

(** ** Tactics for the case analyses of the INSERT statements *)

Ltac case_insert :=
  match goal with |- context [if ?c then _ else _] => destruct c end.


(** * The string helpers on the references the create route issues *)

Example parseInt_topup_ref :
  Js.parseInt (Js.replace "topup_" "" "topup_17") = Some 17.
Proof. reflexivity. Qed.

Example parseInt_stops_at_non_digit : Js.parseInt "  -12abc" = Some (-12).
Proof. reflexivity. Qed.

Example parseInt_hex : Js.parseInt "0x1F" = Some 31.
Proof. reflexivity. Qed.

Example parseInt_nan : Js.parseInt (Js.replace "topup_" "" "bill") = None.
Proof. reflexivity. Qed.

Example replace_first_only :
  Js.replace "topup_" "" "xtopup_5topup_" = "x5topup_"%string.
Proof. reflexivity. Qed.

(** * Facts about single statements *)

Section Statements.
Context (up : Upstream).

(** No statement of the routes rewrites or removes an order row. *)
Lemma exec_orders_kept e db i o :
  orders db !! i = Some o -> orders (exec up e db).2 !! i = Some o.
Proof.
  intros Hi. destruct e; simpl; try done.
  - case_match; done.
  - destruct (pg_integer id); done.
  - destruct (pg_integer id); done.
  - destruct user_id; done.
  - case_match eqn:Hc; simpl; [|done].
    apply andb_prop in Hc as [_ Hfree]. apply bool_decide_eq_true in Hfree.
    rewrite lookup_insert_ne; [done|]. intros <-. congruence.
Qed.

(** A row that appears in [orders] was written by an INSERT of the buy
    shape, without an SMS code. *)
Lemma exec_orders_new e db i o :
  orders db !! i = None -> orders (exec up e db).2 !! i = Some o ->
  exists uid sid prov poid vnum,
    e = InsertOrder uid sid prov poid vnum (o_status o) /\ o_sms_code o = None.
Proof.
  intros Hi. destruct e; simpl; try congruence.
  - case_match; simpl; congruence.
  - destruct (pg_integer id); simpl; congruence.
  - destruct (pg_integer id); simpl; congruence.
  - destruct user_id; simpl; congruence.
  - case_match; simpl; [|congruence].
    intros [[<- <-]|[_ ?]]%lookup_insert_Some; [|congruence].
    simpl. eauto 10.
Qed.

(** Every statement moves the balance of a user by its [delta]. *)
Lemma exec_balance e db uid :
  balance (exec up e db).2 uid = (fun b => b + delta uid e) <$> balance db uid.
Proof.
  assert (Hid : forall x : option User,
             wallet_balance <$> x = (fun b => b + 0) <$> (wallet_balance <$> x)).
  { intros [x|]; simpl; [f_equal; lia|done]. }
  unfold balance.
  destruct e; simpl; try (apply Hid).
  - case_match; simpl; apply Hid.
  - destruct (pg_integer id); simpl; apply Hid.
  - destruct (pg_integer id); simpl; apply Hid.
  - destruct user_id as [u|]; simpl.
    + rewrite lookup_alter. case_decide; subst.
      * by destruct (users db !! uid).
      * apply Hid.
    + apply Hid.
  - case_match; simpl; apply Hid.
  - rewrite lookup_alter. case_decide; subst.
    + by destruct (users db !! uid).
    + apply Hid.
Qed.

(** The users of the shop are a fixed set: no modelled statement adds or
    removes one. *)
Lemma exec_users_dom e db uid :
  is_Some (users (exec up e db).2 !! uid) <-> is_Some (users db !! uid).
Proof.
  pose proof (exec_balance e db uid) as H. unfold balance in H.
  rewrite <- !fmap_is_Some with (f := wallet_balance), H.
  by rewrite fmap_is_Some.
Qed.

End Statements.

(** * Facts about running a handler *)

Section Running.
Context (up : Upstream).


Lemma run_orders_kept h db i o :
  orders db !! i = Some o -> orders (final (run up h db)) !! i = Some o.
Proof.
  revert db. induction h as [| |e k IH]; intros db Hi; simpl; try done.
  pose proof (exec_orders_kept up e db i o Hi) as He.
  destruct (exec up e db) as [[a|] db']; simpl in *; auto.
Qed.

Lemma run_orders_new h db i o :
  orders db !! i = None -> orders (final (run up h db)) !! i = Some o ->
  exists uid sid prov poid vnum,
    InsertOrder uid sid prov poid vnum (o_status o) ∈ trace (run up h db)
    /\ o_sms_code o = None.
Proof.
  revert db. induction h as [| |e k IH]; intros db Hi; simpl; try congruence.
  pose proof (exec_orders_new up e db i o Hi) as He.
  pose proof (exec_orders_kept up e db i) as Hk.
  destruct (exec up e db) as [[a|] db']; simpl in *; intros Ho.
  - destruct (orders db' !! i) as [o'|] eqn:Hi'.
    + assert (o' = o) as ->.
      { apply (run_orders_kept (k a)) in Hi'. congruence. }
      destruct (He eq_refl) as (u & s & p & po & v & -> & Hs).
      exists u, s, p, po, v. split; [apply elem_of_cons; by left|done].
    + destruct (IH a db' Hi' Ho) as (u & s & p & po & v & Hin & Hs).
      exists u, s, p, po, v. split; [apply elem_of_cons; by right|done].
  - destruct (He Ho) as (u & s & p & po & v & -> & Hs).
    exists u, s, p, po, v. split; [apply elem_of_cons; by left|done].
Qed.

Lemma run_balance h db uid :
  balance (final (run up h db)) uid =
  (fun b => b + sum_deltas uid (trace (run up h db))) <$> balance db uid.
Proof.
  revert db. induction h as [| |e k IH]; intros db; simpl.
  - destruct (balance db uid); simpl; [f_equal; unfold sum_deltas; simpl; lia|done].
  - destruct (balance db uid); simpl; [f_equal; unfold sum_deltas; simpl; lia|done].
  - pose proof (exec_balance up e db uid) as He.
    destruct (exec up e db) as [[a|] db']; simpl in *.
    + rewrite IH, He. destruct (balance db uid); simpl; [|done].
      f_equal. unfold sum_deltas. simpl. lia.
    + rewrite He. destruct (balance db uid); simpl; [|done].
      f_equal. unfold sum_deltas. simpl. lia.
Qed.

End Running.

(** * The routes, case by case *)

Section Routes.
Context (up : Upstream).

(** The only INSERT into [orders] is the one of the buy route, and it
    writes status waiting. *)
Lemma route_inserts_waiting r db uid sid prov poid vnum st :
  InsertOrder uid sid prov poid vnum st ∈ trace (run up (route r) db) ->
  st = "waiting"%string.
Proof.
  destruct r as [b|b|b|q]; unfold route, topup_create, topup_callback,
    orders_buy, admin_set_price; simpl;
    repeat (case_match; simpl);
    rewrite ?elem_of_cons, ?elem_of_nil; intros Hin;
    repeat (destruct Hin as [Hin|Hin]; try discriminate Hin; try done);
    by inversion Hin.
Qed.

End Routes.

Section RouteEquations.
Context (up : Upstream).




Lemma callback_paid ev db i t :
  Callback.status ev = "PAID"%string ->
  referenced db (Callback.billExternalReferenceNo ev) = Some (i, t) ->
  response (run up (topup_callback ev) db) = Some ok
  /\ final (run up (topup_callback ev) db) = confirmed i t db
  /\ exists id, trace (run up (topup_callback ev) db) =
       [UpdateTopupStatus "paid" id; SelectTopup id;
        CreditWallet (t_amount t) (t_user_id t)].
Proof.
  intros Hs Hr. unfold topup_callback, referenced, confirmed in *. rewrite Hs. simpl.
  destruct (pg_integer _) as [j|] eqn:Hj; simpl; rewrite ?Hj; simpl; [|done].
  apply fmap_Some in Hr as (t' & Ht & [= -> ->]).
  rewrite lookup_alter_eq, Ht. simpl.
  destruct (t_user_id t'); simpl; eauto.
Qed.

Lemma buy_insufficient req db s b :
  services db !! Buy.service_id req = Some s ->
  balance db (Buy.user_id req) = Some b ->
  b < s_price s ->
  run up (orders_buy req) db =
  mkOutcome (Some insufficient) db
    [SelectService (Buy.service_id req); SelectWalletBalance (Buy.user_id req)].
Proof.
  intros Hs Hb Hlt. unfold orders_buy. simpl. rewrite Hs. simpl. rewrite Hb.
  unfold Js.parseFloat. by apply Z.ltb_lt in Hlt as ->.
Qed.

Lemma buy_provider_fails req db s b :
  services db !! Buy.service_id req = Some s ->
  balance db (Buy.user_id req) = Some b ->
  s_price s <= b ->
  orderNumber up (provider_of s) (s_code s) = None ->
  run up (orders_buy req) db =
  mkOutcome None db
    [SelectService (Buy.service_id req); SelectWalletBalance (Buy.user_id req);
     OrderNumber (provider_of s) (s_code s)].
Proof.
  intros Hs Hb Hle Hp. unfold orders_buy. simpl. rewrite Hs. simpl. rewrite Hb.
  unfold Js.parseFloat. apply Z.ltb_ge in Hle as ->. simpl.
  fold (provider_of s). by rewrite Hp.
Qed.

Lemma buy_placed req db s b r :
  services db !! Buy.service_id req = Some s ->
  balance db (Buy.user_id req) = Some b ->
  s_price s <= b ->
  orderNumber up (provider_of s) (s_code s) = Some r ->
  orders db !! (orders_id_seq db + 1) = None ->
  run up (orders_buy req) db =
  mkOutcome (Some (mkResponse 200 (JsonOrder (orders_id_seq db + 1) r)))
    (placed req s r db)
    [SelectService (Buy.service_id req); SelectWalletBalance (Buy.user_id req);
     OrderNumber (provider_of s) (s_code s);
     InsertOrder (Buy.user_id req) (Buy.service_id req) (s_provider s)
       (Js.or (order_id r) (provider_id r)) (Js.or (number r) None) "waiting";
     DebitWallet (s_price s) (Buy.user_id req)].
Proof.
  intros Hs Hb Hle Hp Hfree. unfold orders_buy. simpl. rewrite Hs. simpl. rewrite Hb.
  unfold Js.parseFloat. apply Z.ltb_ge in Hle as ->. simpl.
  fold (provider_of s). rewrite Hp. simpl.
  assert (is_Some (users db !! Buy.user_id req)) as Hu.
  { unfold balance in Hb. by apply fmap_is_Some with (f := wallet_balance); rewrite Hb. }
  rewrite !bool_decide_eq_true_2 by (done || by rewrite Hs).
  reflexivity.
Qed.

End RouteEquations.

(** * Payment confirmations *)

Section Confirmations.
Context (up : Upstream).

Lemma referenced_confirmed db ref i t :
  referenced db ref = Some (i, t) ->
  referenced (confirmed i t db) ref = Some (i, with_status "paid" t).
Proof.
  unfold referenced. destruct (pg_integer _) as [j|]; [|done].
  intros (t' & Ht & [= -> ->])%fmap_Some.
  assert (topups (confirmed j t' db) = alter (with_status "paid") j (topups db)) as ->.
  { unfold confirmed. by destruct (t_user_id t'). }
  by rewrite lookup_alter_eq, Ht.
Qed.

Lemma balance_confirmed db i t uid b :
  t_user_id t = Some uid -> balance db uid = Some b ->
  balance (confirmed i t db) uid = Some (b + t_amount t).
Proof.
  intros Hu Hb. unfold confirmed, balance in *. rewrite Hu. simpl.
  rewrite lookup_alter_eq. by destruct (users db !! uid); simplify_eq/=.
Qed.

End Confirmations.

(** C1, as stated, fails: the top-up of 20.00 is credited at every delivery
    of its PAID event. After two deliveries the balance of 10.00 has become
    50.00, not 30.00, and the second delivery awaits the same credit
    statement as the first. *)
Lemma replay_credits_twice :
  balance shop 1 = Some 1000
  /\ referenced shop (Callback.billExternalReferenceNo paid_event)
     = Some (1, mkTopup (Some 1) 2000 None "pending")
  /\ balance (deliver 1 answering paid_event shop) 1 = Some 3000
  /\ balance (deliver 2 answering paid_event shop) 1 = Some 5000
  /\ balance (deliver 2 answering paid_event shop) 1 <> Some (1000 + 2000)
  /\ trace (run answering (topup_callback paid_event)
              (deliver 1 answering paid_event shop))
     = [UpdateTopupStatus "paid" (Some 1); SelectTopup (Some 1);
        CreditWallet 2000 (Some 1)].
Proof. vm_compute. repeat split; congruence. Qed.

(** C1, amended: for an existing top-up of an existing user, every delivery
    of its PAID event credits the top-up amount again, so N deliveries raise
    the balance by N times the amount; every delivery is answered 200 OK. *)
Theorem replay_credits_every_delivery up ev db i t uid b (n : nat) :
  Callback.status ev = "PAID"%string ->
  referenced db (Callback.billExternalReferenceNo ev) = Some (i, t) ->
  t_user_id t = Some uid ->
  balance db uid = Some b ->
  balance (deliver n up ev db) uid = Some (b + Z.of_nat n * t_amount t)
  /\ response (run up (topup_callback ev) (deliver n up ev db)) = Some ok.
Proof.
  intros Hs. revert db t b.
  induction n as [|n IH]; intros db t b Hr Hu Hb.
  - simpl. split; [rewrite Hb; f_equal; lia|].
    by destruct (callback_paid up ev db i t Hs Hr) as [-> _].
  - cbn [deliver].
    destruct (callback_paid up ev db i t Hs Hr) as (_ & -> & _).
    destruct (IH (confirmed i t db) (with_status "paid" t) (b + t_amount t))
      as [-> ->]; [by apply referenced_confirmed|done|by apply balance_confirmed|].
    change (t_amount (with_status "paid" t)) with (t_amount t).
    split; [f_equal; lia|done].
Qed.

Lemma replay_credits_every_delivery_witness :
  balance (deliver 3 answering paid_event shop) 1 = Some (1000 + 3 * 2000)
  /\ response (run answering (topup_callback paid_event)
                 (deliver 3 answering paid_event shop)) = Some ok.
Proof.
  apply (replay_credits_every_delivery answering paid_event shop 1
           (mkTopup (Some 1) 2000 None "pending") 1 1000 3); reflexivity.
Defined.

(** C7: the callback never reads the signature of the event. Two events that
    differ in nothing but the signature run the same handler, and the event
    with the forged signature marks top-up 1 paid, credits the 20.00 and is
    answered 200 OK. *)
Theorem callback_ignores_signature :
  (forall ref st amt sig sig',
     topup_callback (Callback.mk ref st amt sig)
     = topup_callback (Callback.mk ref st amt sig'))
  /\ Callback.signature paid_event = "forged"%string
  /\ response (run failing (topup_callback paid_event) shop) = Some ok
  /\ balance (final (run failing (topup_callback paid_event) shop)) 1 = Some 3000
  /\ t_status <$> topups (final (run failing (topup_callback paid_event) shop)) !! 1
     = Some "paid"%string
  /\ trace (run failing (topup_callback paid_event) shop)
     = [UpdateTopupStatus "paid" (Some 1); SelectTopup (Some 1);
        CreditWallet 2000 (Some 1)].
Proof. split; [reflexivity|]. vm_compute. repeat split. Qed.




(** * Purchases *)

Section Purchases.
Context (up : Upstream).

Lemma balance_placed req s r db b :
  balance db (Buy.user_id req) = Some b ->
  balance (placed req s r db) (Buy.user_id req) = Some (b - s_price s).
Proof.
  unfold balance, placed. simpl. rewrite lookup_alter_eq.
  destruct (users db !! Buy.user_id req); intros; simplify_eq/=.
  done.
Qed.


End Purchases.

(** C2: the buy route checks the balance, calls the provider, inserts the
    order and only then debits. No run of the route awaits a debit before its
    provider call, and for the user with 10.00 buying the service priced
    10.00 the debit is the last of the five awaited calls. *)
Theorem buy_debits_after_provider_call :
  (forall up req db,
     existsb is_debit (before_provider (trace (run up (orders_buy req) db))) = false)
  /\ trace (run answering (orders_buy buy_telegram) shop)
     = [SelectService 7; SelectWalletBalance 1; OrderNumber grizzly "telegram";
        InsertOrder 1 7 "Grizzly" (Some "o1"%string) (Some "+60123456789"%string)
          "waiting";
        DebitWallet 1000 1].
Proof.
  split; [|by vm_compute].
  intros up req db. unfold orders_buy. simpl.
  repeat (case_match; simpl); reflexivity.
Qed.

(** C3, as stated, fails: when the provider call fails for a user whose
    balance covers the price, the handler throws; no credit is awaited, no
    order row exists afterwards and so none has status refunded. *)
Lemma provider_failure_refunds_nothing :
  balance shop 1 = Some 1000
  /\ s_price <$> services shop !! 7 = Some 1000
  /\ response (run failing (orders_buy buy_telegram) shop) = None
  /\ trace (run failing (orders_buy buy_telegram) shop)
     = [SelectService 7; SelectWalletBalance 1; OrderNumber grizzly "telegram"]
  /\ orders (final (run failing (orders_buy buy_telegram) shop)) = ∅
  /\ ~ exists i o,
         orders (final (run failing (orders_buy buy_telegram) shop)) !! i = Some o
         /\ o_status o = "refunded"%string.
Proof.
  assert (orders (final (run failing (orders_buy buy_telegram) shop)) = ∅) as He
    by (by vm_compute).
  do 4 (split; [by vm_compute|]). split; [exact He|].
  intros (i & o & Hi & _). by rewrite He, lookup_empty in Hi.
Qed.

(** C3, amended: when the provider call of a buy attempt fails after the
    balance check has passed, the handler throws with the database as it
    was: the balance keeps its pre-purchase value because no debit has been
    made, no credit is awaited and no order is created. *)
Theorem provider_failure_changes_nothing up req db s b :
  services db !! Buy.service_id req = Some s ->
  balance db (Buy.user_id req) = Some b ->
  s_price s <= b ->
  orderNumber up (provider_of s) (s_code s) = None ->
  response (run up (orders_buy req) db) = None
  /\ final (run up (orders_buy req) db) = db
  /\ balance (final (run up (orders_buy req) db)) (Buy.user_id req) = Some b
  /\ Forall (fun e => delta (Buy.user_id req) e = 0) (trace (run up (orders_buy req) db)).
Proof.
  intros Hs Hb Hle Hp. rewrite (buy_provider_fails up req db s b) by done. simpl.
  repeat split; [done|]. by repeat constructor.
Qed.

Lemma provider_failure_changes_nothing_witness :
  response (run failing (orders_buy buy_telegram) shop) = None
  /\ final (run failing (orders_buy buy_telegram) shop) = shop
  /\ balance (final (run failing (orders_buy buy_telegram) shop)) 1 = Some 1000
  /\ Forall (fun e => delta 1 e = 0) (trace (run failing (orders_buy buy_telegram) shop)).
Proof.
  apply (provider_failure_changes_nothing failing buy_telegram shop
           (mkService "telegram" "Telegram" "Grizzly" 300 1000 true) 1000);
    [reflexivity|reflexivity|simpl; lia|reflexivity].
Defined.



(** * Invariants over sequences of requests *)

Section Invariants.




Lemma serve_orders_new c db i o :
  orders db !! i = None -> orders (final (serve c db)) !! i = Some o ->
  o_status o = "waiting"%string /\ o_sms_code o = None.
Proof.
  intros Hi Ho. unfold serve in *.
  destruct (run_orders_new _ _ _ _ _ Hi Ho) as (u & s & p & po & v & Hin & Hsms).
  split; [|done]. by eapply route_inserts_waiting.
Qed.

Lemma sum_deltas_app uid t1 t2 :
  sum_deltas uid (t1 ++ t2) = sum_deltas uid t1 + sum_deltas uid t2.
Proof.
  unfold sum_deltas. induction t1 as [|e t1 IH]; simpl; [done|]. rewrite IH. lia.
Qed.

End Invariants.



(** C10: whatever requests are served, an order row that exists stays as it
    is, with its status, SMS code and virtual number, and an order row that
    has appeared since was inserted with status waiting and no SMS code. *)
Theorem orders_are_written_once cs db :
  (forall i o, orders db !! i = Some o -> orders (serve_all cs db) !! i = Some o)
  /\ (forall i o, orders db !! i = None -> orders (serve_all cs db) !! i = Some o ->
      o_status o = "waiting"%string /\ o_sms_code o = None).
Proof.
  assert (Hkept : forall cs db i o,
             orders db !! i = Some o -> orders (serve_all cs db) !! i = Some o).
  { clear. induction cs as [|c cs IH]; intros db i o Hi; simpl; [done|].
    apply IH. by apply run_orders_kept. }
  split; [apply Hkept|].
  revert db. induction cs as [|c cs IH]; intros db i o Hi Ho; simpl in *; [congruence|].
  destruct (orders (final (serve c db)) !! i) as [o'|] eqn:Hi'.
  - rewrite (Hkept cs _ i o' Hi') in Ho. simplify_eq.
    by eapply serve_orders_new.
  - by eapply IH.
Qed.

Lemma orders_are_written_once_witness :
  o_status <$> orders (serve_all [(answering, OrdersBuy buy_telegram);
                                  (answering, TopupCallback paid_event);
                                  (answering, OrdersBuy buy_telegram)] shop) !! 1
  = Some "waiting"%string.
Proof.
  destruct (orders_are_written_once
              [(answering, OrdersBuy buy_telegram);
               (answering, TopupCallback paid_event);
               (answering, OrdersBuy buy_telegram)] shop) as [_ Hnew].
  destruct (orders (serve_all _ shop) !! 1) as [o|] eqn:Ho; [|by vm_compute in Ho].
  simpl. f_equal. by apply (Hnew 1 o).
Defined.

(** C5, as stated, fails: the schema has no ledger table and no statement
    records a balance mutation. The second delivery of the PAID event moves
    the balance from 30.00 to 50.00 and leaves every stored row other than
    the balance as it was, so no list of entries read off those rows sums to
    the balance at all times. *)
Lemma no_stored_entries_sum_to_balance :
  balance (deliver 1 answering paid_event shop) 1 = Some 3000
  /\ balance (deliver 2 answering paid_event shop) 1 = Some 5000
  /\ erase_balances (deliver 1 answering paid_event shop)
     = erase_balances (deliver 2 answering paid_event shop)
  /\ ~ exists entries : Db -> Z -> list Z,
         forall n,
           balance (deliver n answering paid_event shop) 1
           = Some (foldr Z.add 0
                     (entries (erase_balances (deliver n answering paid_event shop)) 1)).
Proof.
  assert (erase_balances (deliver 1 answering paid_event shop)
          = erase_balances (deliver 2 answering paid_event shop)) as He
    by (by vm_compute).
  split; [by vm_compute|]. split; [by vm_compute|]. split; [exact He|].
  intros [entries H].
  pose proof (H 1%nat) as H1. pose proof (H 2%nat) as H2.
  rewrite He in H1. rewrite <- H2 in H1. by vm_compute in H1.
Qed.

(** C5, amended: no ledger entry is appended; a balance changes only by the
    credit and debit statements of the routes, and after any sequence of
    requests each user's balance equals its initial balance plus the sum of
    the deltas of the statements awaited for that user. *)
Theorem balance_is_initial_plus_deltas cs db uid b :
  balance db uid = Some b ->
  balance (serve_all cs db) uid = Some (b + sum_deltas uid (trace_all cs db)).
Proof.
  revert db b. induction cs as [|c cs IH]; intros db b Hb; simpl.
  - rewrite Hb. f_equal. unfold sum_deltas. simpl. lia.
  - rewrite (IH _ (b + sum_deltas uid (trace (serve c db)))).
    + f_equal. rewrite sum_deltas_app. lia.
    + unfold serve. by rewrite run_balance, Hb.
Qed.

Lemma balance_is_initial_plus_deltas_witness :
  balance (serve_all [(answering, TopupCallback paid_event);
                      (answering, OrdersBuy buy_telegram)] shop) 1
  = Some (1000 + sum_deltas 1 (trace_all [(answering, TopupCallback paid_event);
                                          (answering, OrdersBuy buy_telegram)] shop)).
Proof.
  apply (balance_is_initial_plus_deltas
           [(answering, TopupCallback paid_event);
            (answering, OrdersBuy buy_telegram)] shop 1 1000).
  reflexivity.
Defined.

(** * Two requests at once *)

Section Interleaving.
Context (upA upB : Upstream).






End Interleaving.





(** * Numbers printed into references and parsed back *)

Section Decimal.

Lemma digit_char_cases d :
  0 <= d < 10 ->
  d = 0 \/ d = 1 \/ d = 2 \/ d = 3 \/ d = 4 \/ d = 5 \/ d = 6 \/ d = 7 \/ d = 8 \/ d = 9.
Proof. lia. Qed.

Lemma digit_of_digit_char d :
  0 <= d < 10 -> Js.digit 10 (JsNumber.digit_char d) = Some d.
Proof.
  intros H. destruct (digit_char_cases d H) as [->|[->|[->|[->|[->|[->|[->|[->|[->| ->]]]]]]]]];
    reflexivity.
Qed.

Lemma digits_stop n rest :
  stops_decimal rest -> Js.digits 10 (Some n) rest = Some n.
Proof. destruct rest as [|c rest]; simpl; [done|]. by intros [-> _]. Qed.

Lemma decimal_step f n rest :
  JsNumber.decimal (S f) n rest
  = if n <? 10 then String (JsNumber.digit_char (n mod 10)) rest
    else JsNumber.decimal f (n / 10) (String (JsNumber.digit_char (n mod 10)) rest).
Proof. reflexivity. Qed.

(** Reading the digits that [decimal] printed gives the number back. *)
Lemma digits_decimal f n rest :
  0 <= n < 2 ^ Z.of_nat (S f) ->
  Js.digits 10 None (JsNumber.decimal (S f) n rest) = Js.digits 10 (Some n) rest.
Proof.
  revert n rest. induction f as [|f IH]; intros n rest Hn;
    rewrite decimal_step;
    assert (0 <= n mod 10 < 10) as Hd by (apply Z.mod_pos_bound; lia);
    destruct (n <? 10) eqn:Hlt.
  - apply Z.ltb_lt in Hlt. cbn [Js.digits].
    rewrite digit_of_digit_char by done. cbn [default].
    rewrite Z.mod_small by lia. f_equal; f_equal; lia.
  - apply Z.ltb_ge in Hlt. change (2 ^ Z.of_nat 1) with 2 in Hn. lia.
  - apply Z.ltb_lt in Hlt. cbn [Js.digits].
    rewrite digit_of_digit_char by done. cbn [default].
    rewrite Z.mod_small by lia. f_equal; f_equal; lia.
  - apply Z.ltb_ge in Hlt. rewrite IH.
    + cbn [Js.digits]. rewrite digit_of_digit_char by done. cbn [default].
      f_equal; f_equal; unfold id; pose proof (Z.div_mod n 10 ltac:(lia)); lia.
    + rewrite (Nat2Z.inj_succ (S f)), Z.pow_succ_r in Hn by lia.
      split; [apply Z.div_pos; lia|].
      apply Z.div_lt_upper_bound; lia.
Qed.

Lemma fuel_enough n :
  0 <= n -> 0 <= n < 2 ^ Z.of_nat (S (Z.to_nat (Z.log2 n))).
Proof.
  intros Hn. split; [done|].
  rewrite Nat2Z.inj_succ, Z2Nat.id by apply Z.log2_nonneg.
  destruct (decide (n = 0)) as [->|]; [done|].
  apply Z.log2_spec. lia.
Qed.

Lemma decimal_app f n r1 r2 :
  (JsNumber.decimal f n r1 +:+ r2)%string = JsNumber.decimal f n (r1 +:+ r2)%string.
Proof.
  revert n r1. induction f as [|f IH]; intros n r1; [done|].
  rewrite !decimal_step. destruct (n <? 10); [done|]. by rewrite IH.
Qed.

(** What [decimal] prints starts with a digit, followed by [rest] or by
    another digit. *)
Lemma decimal_shape f n rest :
  (exists d, 0 <= d < 10
     /\ JsNumber.decimal (S f) n rest = String (JsNumber.digit_char d) rest)
  \/ (exists d1 d2 s, 0 <= d1 < 10 /\ 0 <= d2 < 10
       /\ JsNumber.decimal (S f) n rest
          = String (JsNumber.digit_char d1) (String (JsNumber.digit_char d2) s)).
Proof.
  revert n rest. induction f as [|f IH]; intros n rest; rewrite decimal_step;
    assert (0 <= n mod 10 < 10) as Hd by (apply Z.mod_pos_bound; lia);
    destruct (n <? 10); eauto.
  destruct (IH (n / 10) (String (JsNumber.digit_char (n mod 10)) rest))
    as [(d & Hd1 & ->)|(d1 & d2 & s & H1 & H2 & ->)]; right; eauto 10.
Qed.

Lemma trim_start_digit d s :
  0 <= d < 10 ->
  Js.trim_start (String (JsNumber.digit_char d) s) = String (JsNumber.digit_char d) s.
Proof.
  intros H. destruct (digit_char_cases d H) as [->|[->|[->|[->|[->|[->|[->|[->|[->| ->]]]]]]]]];
    reflexivity.
Qed.

Lemma strip_sign_digit d s :
  0 <= d < 10 ->
  Js.strip_sign (String (JsNumber.digit_char d) s) = (1, String (JsNumber.digit_char d) s).
Proof.
  intros H. destruct (digit_char_cases d H) as [->|[->|[->|[->|[->|[->|[->|[->|[->| ->]]]]]]]]];
    reflexivity.
Qed.

Lemma strip_radix_zero_stop rest :
  stops_decimal rest -> Js.strip_radix (String "0" rest) = (10, String "0" rest).
Proof.
  destruct rest as [|c rest]; [done|]. intros (_ & Hx & HX).
  destruct c as [[] [] [] [] [] [] [] []]; try reflexivity; congruence.
Qed.

Lemma strip_radix_digit_stop d rest :
  0 <= d < 10 -> stops_decimal rest ->
  Js.strip_radix (String (JsNumber.digit_char d) rest)
  = (10, String (JsNumber.digit_char d) rest).
Proof.
  intros H Hr.
  destruct (digit_char_cases d H) as [->|[->|[->|[->|[->|[->|[->|[->|[->| ->]]]]]]]]];
    try reflexivity.
  by apply strip_radix_zero_stop.
Qed.

Lemma strip_radix_two_digits d1 d2 s :
  0 <= d1 < 10 -> 0 <= d2 < 10 ->
  Js.strip_radix (String (JsNumber.digit_char d1) (String (JsNumber.digit_char d2) s))
  = (10, String (JsNumber.digit_char d1) (String (JsNumber.digit_char d2) s)).
Proof.
  intros H1 H2.
  destruct (digit_char_cases d1 H1) as [->|[->|[->|[->|[->|[->|[->|[->|[->| ->]]]]]]]]];
    try reflexivity.
  destruct (digit_char_cases d2 H2) as [->|[->|[->|[->|[->|[->|[->|[->|[->| ->]]]]]]]]];
    reflexivity.
Qed.

(** The digits of a natural number, followed by text at which [parseInt]
    stops, parse to the number. *)
Lemma parseInt_decimal f n rest :
  0 <= n < 2 ^ Z.of_nat (S f) -> stops_decimal rest ->
  Js.parseInt (JsNumber.decimal (S f) n rest) = Some n
  /\ Js.parseInt (String "-" (JsNumber.decimal (S f) n rest)) = Some (- n).
Proof.
  intros Hn Hr.
  pose proof (digits_decimal f n rest Hn) as Hd.
  rewrite (digits_stop n rest Hr) in Hd.
  assert (forall s, Js.trim_start (String "-" s) = String "-" s) as Hminus by done.
  unfold Js.parseInt. rewrite Hminus. cbn [Js.strip_sign].
  destruct (decimal_shape f n rest) as [(d & H1 & E)|(d1 & d2 & s & H1 & H2 & E)];
    rewrite E in *.
  - rewrite trim_start_digit, strip_sign_digit, strip_radix_digit_stop by done.
    rewrite Hd. cbn. split; f_equal; lia.
  - rewrite trim_start_digit, strip_sign_digit, strip_radix_two_digits by done.
    rewrite Hd. cbn. split; f_equal; lia.
Qed.

Lemma append_cons c s r : (String c s +:+ r)%string = String c (s +:+ r)%string.
Proof. reflexivity. Qed.

Lemma append_empty_l r : ("" +:+ r)%string = r.
Proof. reflexivity. Qed.

Lemma parseInt_toString_then z rest :
  stops_decimal rest ->
  Js.parseInt (JsNumber.toString z +:+ rest)%string = Some z.
Proof.
  intros Hr. unfold JsNumber.toString, JsNumber.fuel.
  destruct (z <? 0) eqn:Hz.
  - apply Z.ltb_lt in Hz. rewrite append_cons, decimal_app, append_empty_l.
    destruct (parseInt_decimal (Z.to_nat (Z.log2 (- z))) (- z) rest) as [_ ->];
      [apply fuel_enough; lia|done|f_equal; lia].
  - apply Z.ltb_ge in Hz. rewrite decimal_app, append_empty_l.
    by destruct (parseInt_decimal (Z.to_nat (Z.log2 z)) z rest) as [-> _];
      [apply fuel_enough|..].
Qed.

Lemma replace_unfold pat rep s :
  Js.replace pat rep s
  = if String.prefix pat s then (rep +:+ Js.drop (String.length pat) s)%string
    else match s with
         | EmptyString => EmptyString
         | String c s' => String c (Js.replace pat rep s')
         end.
Proof. by destruct s. Qed.

Lemma prefix_append pat s : String.prefix pat (pat +:+ s) = true.
Proof.
  induction pat as [|a pat IH]; [by destruct s|].
  change (String.prefix (String a pat) (String a pat +:+ s))
    with (match ascii_dec a a with
          | left _ => String.prefix pat (pat +:+ s)
          | right _ => false
          end).
  by destruct (ascii_dec a a).
Qed.

Lemma drop_append pat s : Js.drop (String.length pat) (pat +:+ s) = s.
Proof. induction pat as [|a pat IH]; [done|]. exact IH. Qed.

(** Removing a pattern from a string that starts with it leaves the rest. *)
Lemma replace_leading pat s : Js.replace pat "" (pat +:+ s) = s.
Proof. by rewrite replace_unfold, prefix_append, drop_append. Qed.

Lemma append_assoc (a b c : string) : ((a +:+ b) +:+ c = a +:+ (b +:+ c))%string.
Proof. induction a as [|x a IH]; [done|]. by rewrite !append_cons, IH. Qed.

Lemma append_empty_r (a : string) : (a +:+ "")%string = a.
Proof. induction a as [|x a IH]; [done|]. by rewrite append_cons, IH. Qed.

(** The reference of a bill, followed by text at which [parseInt] stops,
    is parsed by the callback to the id it was printed from. *)
Lemma parse_reference_then z rest :
  stops_decimal rest ->
  Js.parseInt (Js.replace "topup_" "" (bill_external_reference z +:+ rest)) = Some z.
Proof.
  intros Hr. unfold bill_external_reference.
  rewrite append_assoc, replace_leading. by apply parseInt_toString_then.
Qed.

Lemma parse_reference z :
  Js.parseInt (Js.replace "topup_" "" (bill_external_reference z)) = Some z.
Proof.
  rewrite <- (parse_reference_then z "" I). by rewrite append_empty_r.
Qed.

End Decimal.

(** X1: the reference the create route writes into the bill,
    [topup_] followed by the id, is read back by the callback as that id,
    whatever the id. *)
Theorem reference_round_trip z :
  Js.parseInt (Js.replace "topup_" "" (bill_external_reference z)) = Some z.
Proof. apply parse_reference. Qed.

(** X2: the callback reads a reference leniently. After the first
    [topup_] is removed, only the leading decimal digits count: text that
    follows the id and starts with a character that is no digit (and is not
    the x of a hexadecimal prefix) is ignored. *)
Theorem reference_trailing_text_ignored z rest :
  stops_decimal rest ->
  Js.parseInt (Js.replace "topup_" "" (bill_external_reference z +:+ rest))
  = Some z.
Proof. apply parse_reference_then. Qed.

Lemma reference_trailing_text_ignored_witness :
  Js.parseInt (Js.replace "topup_" "" "topup_17-refund") = Some 17.
Proof.
  apply (reference_trailing_text_ignored 17 "-refund").
  repeat split; discriminate.
Defined.

(** * Creating a top-up *)

Section Creating.
Context (up : Upstream).

Lemma fk_user_balance db uid b : balance db uid = Some b -> fk_user db (Some uid) = true.
Proof.
  unfold balance, fk_user. intros H. apply bool_decide_eq_true.
  apply fmap_is_Some with (f := wallet_balance). by rewrite H.
Qed.

Lemma create_stored req db url :
  fk_user db (Create.user_id req) = true ->
  topups db !! (topups_id_seq db + 1) = None ->
  createBill up (Create.amount req) (topups_id_seq db + 1) = Some url ->
  run up (topup_create req) db =
  mkOutcome (Some (mkResponse 200 (JsonPayment url (topups_id_seq db + 1))))
    (created req db)
    [InsertTopup (Create.user_id req) (Create.amount req) "pending";
     CreateBill (Create.amount req) (topups_id_seq db + 1)].
Proof.
  intros Hfk Hfree Hbill. unfold topup_create. simpl.
  rewrite Hfk, bool_decide_eq_true_2 by done. simpl. by rewrite Hbill.
Qed.

Lemma referenced_created req db :
  int4 (topups_id_seq db + 1) ->
  referenced (created req db) (bill_external_reference (topups_id_seq db + 1))
  = Some (topups_id_seq db + 1,
          mkTopup (Create.user_id req) (Create.amount req) None "pending").
Proof.
  intros [Hlo Hhi]. unfold referenced. rewrite parse_reference.
  unfold pg_integer.
  apply Z.leb_le in Hlo as ->. apply Z.leb_le in Hhi as ->. simpl.
  by rewrite lookup_insert_eq.
Qed.

Lemma create_gateway_fails req db :
  fk_user db (Create.user_id req) = true ->
  topups db !! (topups_id_seq db + 1) = None ->
  createBill up (Create.amount req) (topups_id_seq db + 1) = None ->
  run up (topup_create req) db =
  mkOutcome None (created req db)
    [InsertTopup (Create.user_id req) (Create.amount req) "pending";
     CreateBill (Create.amount req) (topups_id_seq db + 1)].
Proof.
  intros Hfk Hfree Hbill. unfold topup_create. simpl.
  rewrite Hfk, bool_decide_eq_true_2 by done. simpl. by rewrite Hbill.
Qed.

Lemma create_unknown_user req db uid :
  Create.user_id req = Some uid -> users db !! uid = None ->
  run up (topup_create req) db =
  mkOutcome None
    (mkDb (users db) (services db) (topups db) (orders db)
          (topups_id_seq db + 1) (orders_id_seq db))
    [InsertTopup (Create.user_id req) (Create.amount req) "pending"].
Proof.
  intros Hu Hnone. unfold topup_create. simpl. rewrite Hu. simpl.
  rewrite bool_decide_eq_false_2; [done|]. rewrite Hnone. by intros [? ?].
Qed.

End Creating.

(** X3: a top-up that has been created and is then confirmed. After the
    create route has stored a top-up for an existing user, a PAID event that
    carries the reference of its bill is answered 200 OK, marks the top-up
    paid and moves the balance by the amount that was requested at creation,
    whatever its sign and whatever amount the event itself reports. *)
Theorem created_topup_is_credited_on_payment up up' req db uid b url amt sig :
  Create.user_id req = Some uid ->
  balance db uid = Some b ->
  topups db !! (topups_id_seq db + 1) = None ->
  int4 (topups_id_seq db + 1) ->
  createBill up (Create.amount req) (topups_id_seq db + 1) = Some url ->
  let id := topups_id_seq db + 1 in
  let o1 := run up (topup_create req) db in
  let o2 := run up' (topup_callback (Callback.mk (bill_external_reference id) "PAID" amt sig))
                (final o1) in
  response o1 = Some (mkResponse 200 (JsonPayment url id))
  /\ response o2 = Some ok
  /\ balance (final o2) uid = Some (b + Create.amount req)
  /\ topups (final o2) !! id
     = Some (mkTopup (Some uid) (Create.amount req) None "paid").
Proof.
  intros Hu Hb Hfree Hint Hbill id o1 o2. subst o1 o2 id.
  rewrite (create_stored up req db url) by (rewrite ?Hu; eauto using fk_user_balance).
  cbn [response final]. split; [done|].
  pose proof (referenced_created req db Hint) as Hr.
  destruct (callback_paid up' (Callback.mk (bill_external_reference (topups_id_seq db + 1))
                                 "PAID" amt sig) (created req db) _ _ eq_refl Hr)
    as (-> & -> & _).
  split; [done|]. split.
  - rewrite (balance_confirmed _ _ _ uid b); [done|by rewrite Hu|done].
  - unfold confirmed. cbn [t_user_id]. rewrite Hu. cbn.
    rewrite lookup_alter_eq, lookup_insert_eq. cbn. unfold with_status. cbn.
    by rewrite Hu.
Qed.

Lemma created_topup_is_credited_on_payment_witness :
  balance (final (run answering
                    (topup_callback (Callback.mk (bill_external_reference 2) "PAID" 1 "s"))
                    (final (run answering (topup_create (Create.mk (-5000) (Some 1))) shop))))
          1
  = Some (1000 + -5000).
Proof.
  destruct (created_topup_is_credited_on_payment answering answering
              (Create.mk (-5000) (Some 1)) shop 1 1000
              (Some "https://toyyibpay.com/bill"%string) 1 "s")
    as (_ & _ & H & _);
    [reflexivity|reflexivity|reflexivity|unfold int4; simpl; lia|reflexivity|exact H].
Defined.

(** X4: the create route stores the pending top-up before it calls the
    gateway and does not take it back: when the gateway call fails, the
    handler throws without a response and the pending row stays. *)
Theorem create_keeps_row_when_gateway_fails up req db :
  fk_user db (Create.user_id req) = true ->
  topups db !! (topups_id_seq db + 1) = None ->
  createBill up (Create.amount req) (topups_id_seq db + 1) = None ->
  response (run up (topup_create req) db) = None
  /\ topups (final (run up (topup_create req) db)) !! (topups_id_seq db + 1)
     = Some (mkTopup (Create.user_id req) (Create.amount req) None "pending").
Proof.
  intros Hfk Hfree Hbill. rewrite (create_gateway_fails up req db) by done.
  split; [done|]. cbn. by rewrite lookup_insert_eq.
Qed.

Lemma create_keeps_row_when_gateway_fails_witness :
  response (run failing (topup_create (Create.mk 2000 (Some 1))) shop) = None
  /\ topups (final (run failing (topup_create (Create.mk 2000 (Some 1))) shop)) !! 2
     = Some (mkTopup (Some 1) 2000 None "pending").
Proof.
  apply (create_keeps_row_when_gateway_fails failing (Create.mk 2000 (Some 1)) shop);
    reflexivity.
Defined.

(** X5: a top-up for a user id that is in no row of [users] is refused by
    the foreign key: the handler throws, no top-up is stored and the gateway
    is not called. *)
Theorem create_for_unknown_user_stores_nothing up req db uid :
  Create.user_id req = Some uid -> users db !! uid = None ->
  response (run up (topup_create req) db) = None
  /\ topups (final (run up (topup_create req) db)) = topups db
  /\ trace (run up (topup_create req) db)
     = [InsertTopup (Create.user_id req) (Create.amount req) "pending"].
Proof.
  intros Hu Hnone. by rewrite (create_unknown_user up req db uid).
Qed.

Lemma create_for_unknown_user_stores_nothing_witness :
  response (run answering (topup_create (Create.mk 2000 (Some 9))) shop) = None
  /\ topups (final (run answering (topup_create (Create.mk 2000 (Some 9))) shop))
     = topups shop.
Proof.
  destruct (create_for_unknown_user_stores_nothing answering
              (Create.mk 2000 (Some 9)) shop 9) as (H1 & H2 & _);
    [reflexivity|reflexivity|]. by split.
Defined.

(** * What a sequence of requests keeps *)

Section Preservation.

(** A property of the database that every statement of a certain kind keeps
    is kept by a run that awaits only statements of that kind. *)
Lemma run_preserves up (Q : Effect -> Prop) (P : Db -> Prop) :
  (forall e db, Q e -> P db -> P (exec up e db).2) ->
  forall h db, Forall Q (trace (run up h db)) -> P db -> P (final (run up h db)).
Proof.
  intros Hstep. induction h as [| |e k IH]; intros db Hq Hp; simpl in *; try done.
  pose proof (Hstep e db) as He.
  destruct (exec up e db) as [[a|] db']; simpl in *.
  - apply Forall_cons in Hq as [Hqe Hq]. apply IH; auto.
  - apply Forall_cons in Hq as [Hqe Hq]. auto.
Qed.

Lemma route_writes_known_status up r db :
  Forall writes_known_status (trace (run up (route r) db)).
Proof.
  destruct r as [b|b|b|q]; unfold route, topup_create, topup_callback,
    orders_buy, admin_set_price; simpl;
    repeat (case_match; simpl); repeat constructor.
Qed.

Lemma serve_all_preserves (P : Db -> Prop) :
  (forall up e db, writes_known_status e -> P db -> P (exec up e db).2) ->
  forall cs db, P db -> P (serve_all cs db).
Proof.
  intros Hstep. induction cs as [|[up r] cs IH]; intros db Hp; simpl; [done|].
  apply IH. unfold serve. simpl.
  apply (run_preserves up writes_known_status P); auto using route_writes_known_status.
Qed.

End Preservation.

(** X6: a stored top-up is never deleted, and its owner, amount and
    transaction reference never change; its status either stays what it was
    or has become paid, so a paid top-up stays paid and none is ever marked
    failed. *)
Theorem topup_rows_are_kept cs db i t :
  topups db !! i = Some t ->
  exists t', topups (serve_all cs db) !! i = Some t'
    /\ t_user_id t' = t_user_id t /\ t_amount t' = t_amount t
    /\ t_tx_ref t' = t_tx_ref t
    /\ (t_status t' = t_status t \/ t_status t' = "paid"%string).
Proof.
  intros Hi.
  apply (serve_all_preserves (fun db' =>
    exists t', topups db' !! i = Some t'
      /\ t_user_id t' = t_user_id t /\ t_amount t' = t_amount t
      /\ t_tx_ref t' = t_tx_ref t
      /\ (t_status t' = t_status t \/ t_status t' = "paid"%string)));
    [|by eauto 10].
  clear. intros up e db Hq (t' & Ht' & Hu & Ha & Hx & Hs).
  destruct e as [u a st|st id|id|a u|id|u|u sid pv po v st|p u|p id|p tid|pv c]; simpl in *; eauto 10.
  - case_match eqn:Hc; simpl; eauto 10.
    apply andb_prop in Hc as [_ Hfree%bool_decide_eq_true].
    exists t'. rewrite lookup_insert_ne; [eauto 10|]. intros <-. congruence.
  - destruct (pg_integer id) as [j|]; simpl; eauto 10.
    destruct (decide (j = i)) as [->|Hne].
    + exists (with_status st t'). rewrite lookup_alter_eq, Ht'. simpl. eauto 10.
    + exists t'. rewrite lookup_alter_ne by done. eauto 10.
  - destruct (pg_integer id); simpl; eauto 10.
  - destruct u; simpl; eauto 10.
  - case_match; simpl; eauto 10.
Qed.

Lemma topup_rows_are_kept_witness :
  exists t', topups (serve_all [(answering, TopupCallback paid_event);
                                (answering, TopupCallback failed_unknown_event);
                                (answering, OrdersBuy buy_telegram)] shop) !! 1 = Some t'
    /\ t_amount t' = 2000 /\ t_user_id t' = Some 1.
Proof.
  destruct (topup_rows_are_kept
              [(answering, TopupCallback paid_event);
               (answering, TopupCallback failed_unknown_event);
               (answering, OrdersBuy buy_telegram)] shop 1
              (mkTopup (Some 1) 2000 None "pending") eq_refl)
    as (t' & H & Hu & Ha & _).
  exists t'. by repeat split.
Defined.

(** X7: a top-up row that has appeared while requests were served has no
    transaction reference, and its status is pending or paid. *)
Theorem new_topups_are_pending_or_paid cs db i t' :
  topups db !! i = None ->
  topups (serve_all cs db) !! i = Some t' ->
  t_tx_ref t' = None
  /\ (t_status t' = "pending"%string \/ t_status t' = "paid"%string).
Proof.
  intros Hi. revert t'.
  apply (serve_all_preserves (fun db' => forall t',
    topups db' !! i = Some t' ->
    t_tx_ref t' = None
    /\ (t_status t' = "pending"%string \/ t_status t' = "paid"%string)));
    [|by intros t'; rewrite Hi].
  clear. intros up e db Hq Hp t'.
  destruct e as [u a st|st id|id|a u|id|u|u sid pv po v st|p u|p id|p tid|pv c]; simpl in *; eauto.
  - case_match; simpl; eauto.
    intros [[_ <-]|[_ ?]]%lookup_insert_Some; simpl; eauto.
  - destruct (pg_integer id) as [j|]; simpl; eauto.
    intros [(_ & x & Hx & ->)|[_ ?]]%lookup_alter_Some; eauto.
    simpl. destruct (Hp x Hx). eauto.
  - destruct (pg_integer id); simpl; eauto.
  - destruct u; simpl; eauto.
  - case_match; simpl; eauto.
Qed.

Lemma new_topups_are_pending_or_paid_witness :
  t_status <$> topups (serve_all [(answering, TopupCreate (Create.mk 500 (Some 1)))] shop) !! 2
  = Some "pending"%string.
Proof.
  destruct (topups (serve_all [(answering, TopupCreate (Create.mk 500 (Some 1)))] shop) !! 2)
    as [t'|] eqn:Ht; [|by vm_compute in Ht].
  destruct (new_topups_are_pending_or_paid
              [(answering, TopupCreate (Create.mk 500 (Some 1)))] shop 2 t' eq_refl Ht)
    as [_ [H|H]]; simpl; f_equal; [exact H|].
  vm_compute in Ht. by simplify_eq.
Defined.

(** X8: the top-up, buy and admin routes neither add nor remove a user,
    and they change nothing of a user but the balance. *)
Theorem users_keep_identity cs db uid :
  match users db !! uid with
  | Some u => exists u', users (serve_all cs db) !! uid = Some u'
                /\ email u' = email u /\ role u' = role u
  | None => users (serve_all cs db) !! uid = None
  end.
Proof.
  apply (serve_all_preserves (fun db' =>
    match users db !! uid with
    | Some u => exists u', users db' !! uid = Some u'
                  /\ email u' = email u /\ role u' = role u
    | None => users db' !! uid = None
    end)); [|by destruct (users db !! uid); eauto].
  intros up e db' _ Hp.
  assert (forall d j,
    match users db !! uid with
    | Some u => exists u', alter (add_balance d) j (users db') !! uid = Some u'
                  /\ email u' = email u /\ role u' = role u
    | None => alter (add_balance d) j (users db') !! uid = None
    end) as Halter.
  { intros d j. destruct (users db !! uid) as [u|].
    - destruct Hp as (u' & Hu' & He & Hr).
      destruct (decide (j = uid)) as [->|].
      + exists (add_balance d u'). by rewrite lookup_alter_eq, Hu'.
      + exists u'. by rewrite lookup_alter_ne.
    - by apply lookup_alter_None. }
  destruct e as [u a st|st id|id|a u|id|u|u sid pv po v st|p u|p id|p tid|pv c]; simpl; try done.
  - by case_insert.
  - by destruct (pg_integer id).
  - by destruct (pg_integer id).
  - destruct u as [j|]; simpl; [apply Halter|done].
  - by case_insert.
  - apply Halter.
Qed.

(** X9: a service row is never deleted and none is added; of a service only
    the price can change, and it changes only through the admin route: a
    sequence of top-up and buy requests leaves the [services] table as it
    was. *)
Theorem services_change_only_in_price cs db :
  (forall i,
     match services db !! i with
     | Some s => exists s', services (serve_all cs db) !! i = Some s'
                   /\ s_code s' = s_code s /\ s_name s' = s_name s
                   /\ s_provider s' = s_provider s
                   /\ s_provider_cost s' = s_provider_cost s
                   /\ s_active s' = s_active s
     | None => services (serve_all cs db) !! i = None
     end)
  /\ (Forall (fun c => match snd c with AdminSetPrice _ => False | _ => True end) cs ->
      services (serve_all cs db) = services db).
Proof.
  split.
  - intros i.
    apply (serve_all_preserves (fun db' =>
      match services db !! i with
      | Some s => exists s', services db' !! i = Some s'
                    /\ s_code s' = s_code s /\ s_name s' = s_name s
                    /\ s_provider s' = s_provider s
                    /\ s_provider_cost s' = s_provider_cost s
                    /\ s_active s' = s_active s
      | None => services db' !! i = None
      end)); [|by destruct (services db !! i); eauto 10].
    intros up e db' _ Hp. destruct e as [u a st|st id|id|a u|id|u|u sid pv po v st|p u|p id|p tid|pv c]; simpl; try done.
    + by case_insert.
    + by destruct (pg_integer id).
    + by destruct (pg_integer id).
    + by destruct u.
    + by case_insert.
    + destruct (services db !! i) as [s|].
      * destruct Hp as (s' & Hs' & Hrest).
        destruct (decide (id = i)) as [->|].
        -- exists (with_price p s'). by rewrite lookup_alter_eq, Hs'.
        -- exists s'. by rewrite lookup_alter_ne.
      * by apply lookup_alter_None.
  - intros Hcs. revert db. induction Hcs as [|c cs Hr _ IH]; intros db; simpl; [done|].
    destruct c as [up r]. rewrite IH. unfold serve. simpl in *.
    apply (run_preserves up
             (fun e => match e with UpdateServicePrice _ _ => False | _ => True end)
             (fun db' => services db' = services db)); [| |done].
    + intros e db' He Hp. destruct e as [u a st|st id|id|a u|id|u|u sid pv po v st|p u|p id|p tid|pv c]; simpl; try done.
      * by case_insert.
      * by destruct (pg_integer id).
      * by destruct (pg_integer id).
      * by destruct u.
      * by case_insert.
    + destruct r as [b|b|b|q]; [| | |done]; unfold route, topup_create, topup_callback,
        orders_buy; simpl; repeat (case_match; simpl); repeat constructor.
Qed.

Lemma services_change_only_in_price_witness :
  services (serve_all [(answering, TopupCallback paid_event);
                       (answering, OrdersBuy buy_telegram)] shop) = services shop.
Proof.
  apply (services_change_only_in_price
           [(answering, TopupCallback paid_event);
            (answering, OrdersBuy buy_telegram)] shop).
  repeat constructor.
Defined.

(** X10: when every stored top-up and order has an id its sequence has
    already handed out, this stays so whatever requests are served, and the
    id the next INSERT draws is free: the INSERTs of the create and buy
    routes never meet an existing primary key. *)
Theorem inserted_ids_are_fresh cs db :
  ids_below_seq db ->
  ids_below_seq (serve_all cs db)
  /\ topups (serve_all cs db) !! (topups_id_seq (serve_all cs db) + 1) = None
  /\ orders (serve_all cs db) !! (orders_id_seq (serve_all cs db) + 1) = None.
Proof.
  intros Hwf.
  assert (ids_below_seq (serve_all cs db)) as [Ht Ho].
  { apply (serve_all_preserves ids_below_seq); [|done].
    clear. intros up e db _ [Ht Ho]. unfold ids_below_seq.
    destruct e as [u a st|st id|id|a u|id|u|u sid pv po v st|p u|p id|p tid|pv c]; simpl; try done.
    - case_match; simpl; split; try done.
      + intros i [<-|[_ Hi]]%lookup_insert_is_Some; [lia|].
        specialize (Ht i Hi). lia.
      + intros i Hi. specialize (Ht i Hi). lia.
    - destruct (pg_integer id); simpl; split; try done.
      intros i Hi%lookup_alter_is_Some. auto.
    - by destruct (pg_integer id).
    - by destruct u.
    - case_match; simpl; split; try done.
      + intros i [<-|[_ Hi]]%lookup_insert_is_Some; [lia|].
        specialize (Ho i Hi). lia.
      + intros i Hi. specialize (Ho i Hi). lia. }
  split; [done|]. split.
  - apply eq_None_not_Some. intros Hi%Ht. lia.
  - apply eq_None_not_Some. intros Hi%Ho. lia.
Qed.

Lemma inserted_ids_are_fresh_witness :
  orders (serve_all [(answering, OrdersBuy buy_telegram)] shop)
    !! (orders_id_seq (serve_all [(answering, OrdersBuy buy_telegram)] shop) + 1) = None.
Proof.
  apply (inserted_ids_are_fresh [(answering, OrdersBuy buy_telegram)] shop).
  split; intros i; unfold shop; simpl.
  - intros [t [<- _]%lookup_singleton_Some]. lia.
  - intros [o Ho]. by rewrite lookup_empty in Ho.
Defined.

(** * What single routes touch and what they leave alone *)



(** X12: the admin route sets the price of an existing service to whatever
    number it is given, negative or zero included, answers 200 with ok, and
    changes nothing else: the other fields of the service, the other
    services, the users, top-ups and orders stay as they were. *)
Theorem set_price_overwrites_price_only up q db s :
  services db !! SetPrice.id q = Some s ->
  let o := run up (admin_set_price q) db in
  response o = Some (mkResponse 200 JsonOk)
  /\ services (final o) !! SetPrice.id q
     = Some (mkService (s_code s) (s_name s) (s_provider s) (s_provider_cost s)
                       (SetPrice.price q) (s_active s))
  /\ (forall j, j <> SetPrice.id q -> services (final o) !! j = services db !! j)
  /\ users (final o) = users db /\ topups (final o) = topups db
  /\ orders (final o) = orders db.
Proof.
  intros Hs o. subst o. unfold admin_set_price. simpl.
  repeat split.
  - by rewrite lookup_alter_eq, Hs.
  - intros j Hj. by rewrite lookup_alter_ne.
Qed.

Lemma set_price_overwrites_price_only_witness :
  s_price <$> services (final (run answering (admin_set_price (SetPrice.mk 7 (-300))) shop)) !! 7
  = Some (-300).
Proof.
  destruct (set_price_overwrites_price_only answering (SetPrice.mk 7 (-300)) shop
              (mkService "telegram" "Telegram" "Grizzly" 300 1000 true) eq_refl)
    as (_ & H & _).
  exact (f_equal (fmap s_price) H).
Defined.





(** * Edge cases of the buy route *)



(** X16: a buy by a user id that is in no row of [users] is not answered
    with a client error: reading the balance of the missing row throws, so
    no response is sent; no provider is called and the database is
    unchanged. *)
Theorem buy_unknown_user up req db s :
  services db !! Buy.service_id req = Some s ->
  users db !! Buy.user_id req = None ->
  run up (orders_buy req) db
  = mkOutcome None db
      [SelectService (Buy.service_id req); SelectWalletBalance (Buy.user_id req)].
Proof.
  intros Hs Hu. unfold orders_buy. simpl. rewrite Hs. simpl.
  unfold balance. by rewrite Hu.
Qed.

Lemma buy_unknown_user_witness :
  response (run answering (orders_buy (Buy.mk 2 7)) shop) = None
  /\ final (run answering (orders_buy (Buy.mk 2 7)) shop) = shop.
Proof.
  by rewrite (buy_unknown_user answering (Buy.mk 2 7) shop
                (mkService "telegram" "Telegram" "Grizzly" 300 1000 true) eq_refl eq_refl).
Defined.

(** X17: the buy route does not look at the active flag: a service that is
    not active is sold like any other. With a balance that covers the price,
    a provider that answers and a free order id, the buy is answered 200, the
    order is stored as waiting and the price is debited. *)
Theorem inactive_service_is_sold up req db s b r :
  s_active s = false ->
  services db !! Buy.service_id req = Some s ->
  balance db (Buy.user_id req) = Some b ->
  s_price s <= b ->
  orderNumber up (provider_of s) (s_code s) = Some r ->
  orders db !! (orders_id_seq db + 1) = None ->
  let o := run up (orders_buy req) db in
  response o = Some (mkResponse 200 (JsonOrder (orders_id_seq db + 1) r))
  /\ o_status <$> orders (final o) !! (orders_id_seq db + 1) = Some "waiting"%string
  /\ balance (final o) (Buy.user_id req) = Some (b - s_price s).
Proof.
  intros _ Hs Hb Hle Hp Hfree o. subst o.
  rewrite (buy_placed up req db s b r) by done. cbn [response final].
  split; [done|]. split; [|by apply balance_placed].
  unfold placed. simpl. by rewrite lookup_insert_eq.
Qed.

Lemma inactive_service_is_sold_witness :
  let db := set_services (alter (fun s => mkService (s_code s) (s_name s) (s_provider s)
                                           (s_provider_cost s) (s_price s) false) 7) shop in
  success (response (run answering (orders_buy buy_telegram) db)) = true
  /\ balance (final (run answering (orders_buy buy_telegram) db)) 1 = Some (1000 - 1000).
Proof.
  intros db.
  destruct (inactive_service_is_sold answering buy_telegram db
              (mkService "telegram" "Telegram" "Grizzly" 300 1000 false) 1000
              (mkProviderResult (Some "o1"%string) None (Some "+60123456789"%string)))
    as (H1 & _ & H3);
    [reflexivity|reflexivity|reflexivity|simpl; lia|reflexivity|reflexivity|].
  split; [by rewrite H1|exact H3].
Defined.

(** X18: the buy route charges for whatever the provider answers. When the
    answer carries no usable order id, only the id field, and no number
    (fields undefined or empty), the order is still stored, with the id
    field as provider order id and a NULL virtual number, and the price is
    still debited. *)
Theorem buy_charges_without_number up req db s b r :
  Js.truthy (order_id r) = false ->
  Js.truthy (number r) = false ->
  services db !! Buy.service_id req = Some s ->
  balance db (Buy.user_id req) = Some b ->
  s_price s <= b ->
  orderNumber up (provider_of s) (s_code s) = Some r ->
  orders db !! (orders_id_seq db + 1) = None ->
  let o := run up (orders_buy req) db in
  orders (final o) !! (orders_id_seq db + 1)
  = Some (mkOrder (Buy.user_id req) (Buy.service_id req) (s_provider s)
                  (provider_id r) None None "waiting")
  /\ balance (final o) (Buy.user_id req) = Some (b - s_price s)
  /\ success (response o) = true.
Proof.
  intros Ho Hn Hs Hb Hle Hp Hfree o. subst o.
  rewrite (buy_placed up req db s b r) by done. cbn [response final].
  split; [|split; [by apply balance_placed|done]].
  unfold placed, order_row, Js.or. simpl. by rewrite lookup_insert_eq, Ho, Hn.
Qed.

Lemma buy_charges_without_number_witness :
  let up := mkUpstream (fun _ _ => None)
                       (fun _ _ => Some (mkProviderResult None None (Some ""%string))) in
  orders (final (run up (orders_buy buy_telegram) shop)) !! 1
  = Some (mkOrder 1 7 "Grizzly" None None None "waiting")
  /\ balance (final (run up (orders_buy buy_telegram) shop)) 1 = Some (1000 - 1000).
Proof.
  intros up.
  destruct (buy_charges_without_number up buy_telegram shop
              (mkService "telegram" "Telegram" "Grizzly" 300 1000 true) 1000
              (mkProviderResult None None (Some ""%string)))
    as (H1 & H2 & _);
    [reflexivity|reflexivity|reflexivity|reflexivity|simpl; lia|reflexivity|reflexivity|].
  by split.
Defined.

(** X19: a buy touches nothing but the buyer's balance, the order it
    inserts and the order sequence: services, top-ups and the top-up
    sequence stay as they were, so does every other user's row and every
    order row but the one at the next id, and the order sequence moves by at
    most one. *)
Theorem buy_touches_only_buyer_and_new_order up req db :
  let db' := final (run up (orders_buy req) db) in
  services db' = services db /\ topups db' = topups db
  /\ topups_id_seq db' = topups_id_seq db
  /\ (forall uid, uid <> Buy.user_id req -> users db' !! uid = users db !! uid)
  /\ (forall i, i <> orders_id_seq db + 1 -> orders db' !! i = orders db !! i)
  /\ orders_id_seq db <= orders_id_seq db' <= orders_id_seq db + 1.
Proof.
  intros db'. subst db'. unfold orders_buy. simpl.
  destruct (services db !! Buy.service_id req) as [s|]; simpl;
    [|repeat split; (done || lia)].
  destruct (balance db (Buy.user_id req)) as [b|]; simpl;
    [|repeat split; (done || lia)].
  destruct (Js.parseFloat b <? Js.parseFloat (s_price s)); simpl;
    [repeat split; (done || lia)|].
  destruct (orderNumber up _ _) as [r|]; simpl; [|repeat split; (done || lia)].
  case_insert; simpl; repeat split; try (done || lia).
  - intros uid Hu. by rewrite lookup_alter_ne.
  - intros i Hi. by rewrite lookup_insert_ne.
Qed.

Lemma buy_touches_only_buyer_and_new_order_witness :
  topups (final (run answering (orders_buy buy_telegram) shop)) = topups shop
  /\ users (final (run answering (orders_buy buy_telegram) shop)) !! 2 = users shop !! 2.
Proof.
  destruct (buy_touches_only_buyer_and_new_order answering buy_telegram shop)
    as (_ & Ht & _ & Hu & _).
  split; [exact Ht|]. apply Hu. discriminate.
Defined.

(** X20: a buy calls a provider at most once, for the code of the
    requested service, and picks the wrapper by the provider column: the
    CyberYozh wrapper when the column is exactly CyberYozh, the Grizzly
    wrapper for every other value. *)
Theorem buy_calls_the_service_provider up req db :
  (List.length (filter (fun e => is_provider_call e = true)
                       (trace (run up (orders_buy req) db))) <= 1)%nat
  /\ forall p c,
       OrderNumber p c ∈ trace (run up (orders_buy req) db) ->
       exists s, services db !! Buy.service_id req = Some s
         /\ c = s_code s
         /\ (p = cyber <-> s_provider s = "CyberYozh"%string)
         /\ (p = grizzly <-> s_provider s <> "CyberYozh"%string).
Proof.
  unfold orders_buy. simpl.
  destruct (services db !! Buy.service_id req) as [s|]; simpl.
  2: { split; [lia|]. intros p c Hin. by repeat (apply elem_of_cons in Hin as [?|Hin];
                                               [done|]); apply elem_of_nil in Hin. }
  assert (Hdispatch : forall p,
             p = (if String.eqb (s_provider s) "CyberYozh" then cyber else grizzly) ->
             (p = cyber <-> s_provider s = "CyberYozh"%string)
             /\ (p = grizzly <-> s_provider s <> "CyberYozh"%string)).
  { intros p ->. destruct (String.eqb_spec (s_provider s) "CyberYozh"); split; split;
      try done. }
  destruct (balance db (Buy.user_id req)) as [b|]; simpl;
    [destruct (Js.parseFloat b <? Js.parseFloat (s_price s)); simpl;
     [|destruct (orderNumber up _ _) as [r|]; simpl; [case_insert; simpl|]]|];
    (split; [simpl; lia|]);
    intros p c Hin;
    repeat (apply elem_of_cons in Hin as [Hin|Hin];
            [try discriminate Hin;
             try (injection Hin as -> ->; exists s; split; [done|split; [done|]];
                  by apply Hdispatch)|]);
    by apply elem_of_nil in Hin.
Qed.

Lemma buy_calls_the_service_provider_witness :
  OrderNumber grizzly "telegram" ∈ trace (run answering (orders_buy buy_telegram) shop)
  /\ (grizzly = grizzly <-> "Grizzly"%string <> "CyberYozh"%string).
Proof.
  assert (OrderNumber grizzly "telegram"
          ∈ trace (run answering (orders_buy buy_telegram) shop)) as Hin.
  { assert (trace (run answering (orders_buy buy_telegram) shop)
            = [SelectService 7; SelectWalletBalance 1; OrderNumber grizzly "telegram";
               InsertOrder 1 7 "Grizzly" (Some "o1"%string)
                 (Some "+60123456789"%string) "waiting";
               DebitWallet 1000 1]) as -> by (by vm_compute).
    rewrite !elem_of_cons. auto. }
  split; [exact Hin|].
  destruct (proj2 (buy_calls_the_service_provider answering buy_telegram shop)
              grizzly "telegram" Hin) as (s & Hs & _ & _ & Hg).
  vm_compute in Hs. by injection Hs as <-.
Defined.

(** * Interleaved requests: what no schedule can break *)

(** X21: no balance update is lost, whatever the interleaving. The credit
    and debit statements add to and subtract from the stored balance, so
    after any schedule of any two handlers a user's balance is the initial
    balance plus the deltas of the statements that were executed. *)
Theorem interleaved_balance_is_initial_plus_deltas sched upA upB hA hB db uid b :
  balance db uid = Some b ->
  balance (interleave sched upA upB hA hB db).2 uid
  = Some (b + sum_deltas uid (interleave_trace sched upA upB hA hB db)).
Proof.
  assert (Hstep : forall up h db b,
             balance db uid = Some b ->
             balance (step up h db).2 uid = Some (b + sum_deltas uid (awaited h))).
  { intros up h db0 b0 Hb0. destruct h as [| |e k]; simpl;
      try (rewrite Hb0; f_equal; unfold sum_deltas; simpl; lia).
    pose proof (exec_balance up e db0 uid) as He. rewrite Hb0 in He.
    destruct (exec up e db0) as [[a|] db']; simpl in *; rewrite He; simpl;
      f_equal; unfold sum_deltas; simpl; lia. }
  revert hA hB db b. induction sched as [|[] sched IH]; intros hA hB db b Hb.
  - simpl. rewrite Hb. f_equal. unfold sum_deltas. simpl. lia.
  - cbn [interleave interleave_trace]. pose proof (Hstep upA hA db b Hb) as Hs.
    destruct (step upA hA db) as [hA' db']. cbn [snd] in Hs. rewrite (IH _ _ _ _ Hs).
    rewrite sum_deltas_app. f_equal. lia.
  - cbn [interleave interleave_trace]. pose proof (Hstep upB hB db b Hb) as Hs.
    destruct (step upB hB db) as [hB' db']. cbn [snd] in Hs. rewrite (IH _ _ _ _ Hs).
    rewrite sum_deltas_app. f_equal. lia.
Qed.

Lemma interleaved_balance_is_initial_plus_deltas_witness :
  balance (interleave alternating answering answering
             (orders_buy buy_telegram) (topup_callback paid_event) shop).2 1
  = Some (1000 + sum_deltas 1 (interleave_trace alternating answering answering
                                 (orders_buy buy_telegram) (topup_callback paid_event)
                                 shop)).
Proof.
  apply (interleaved_balance_is_initial_plus_deltas alternating answering answering
           (orders_buy buy_telegram) (topup_callback paid_event) shop 1 1000).
  reflexivity.
Defined.

(** X22: no interleaving of two handlers rewrites or removes an order row
    that exists. *)
Theorem interleaving_keeps_orders sched upA upB hA hB db i o :
  orders db !! i = Some o ->
  orders (interleave sched upA upB hA hB db).2 !! i = Some o.
Proof.
  assert (Hstep : forall up h db, orders db !! i = Some o ->
                                  orders (step up h db).2 !! i = Some o).
  { intros up h db0 H0. destruct h as [| |e k]; simpl; try done.
    pose proof (exec_orders_kept up e db0 i o H0).
    by destruct (exec up e db0) as [[a|] db']. }
  revert hA hB db. induction sched as [|[] sched IH]; intros hA hB db Hi; [done|..];
    cbn [interleave].
  - pose proof (Hstep upA hA db Hi). destruct (step upA hA db). by apply IH.
  - pose proof (Hstep upB hB db Hi). destruct (step upB hB db). by apply IH.
Qed.

Lemma interleaving_keeps_orders_witness :
  let db := final (run answering (orders_buy buy_telegram) shop) in
  o_status <$> orders (interleave alternating answering answering
                         (orders_buy buy_telegram) (topup_callback paid_event) db).2 !! 1
  = Some "waiting"%string.
Proof.
  intros db.
  by rewrite (interleaving_keeps_orders alternating answering answering
                (orders_buy buy_telegram) (topup_callback paid_event) db 1
                (mkOrder 1 7 "Grizzly" (Some "o1"%string) (Some "+60123456789"%string)
                         None "waiting") eq_refl).
Defined.



(** * Registering and logging in *)

Section Accounts.

Lemma find_by_email_Some e us i u :
  Auth.find_by_email e us = Some (i, u) -> us !! i = Some u /\ email u = e.
Proof.
  unfold Auth.find_by_email. intros H.
  assert ((i, u) ∈ filter (fun p : Z * User => email p.2 = e) (map_to_list us)) as Hin.
  { destruct (filter _ _) as [|x l]; simplify_eq/=. apply elem_of_cons. by left. }
  apply list_elem_of_filter in Hin as [He Hin]. by apply elem_of_map_to_list in Hin.
Qed.

Lemma find_by_email_None e us :
  Auth.find_by_email e us = None <-> forall i u, us !! i = Some u -> email u <> e.
Proof.
  unfold Auth.find_by_email. split.
  - intros H i u Hi He.
    assert ((i, u) ∈ filter (fun p : Z * User => email p.2 = e) (map_to_list us)) as Hin.
    { apply list_elem_of_filter. split; [done|]. by apply elem_of_map_to_list. }
    destruct (filter _ _); [by apply elem_of_nil in Hin|done].
  - intros H. destruct (filter _ _) as [|[i u] l] eqn:Hf; [done|].
    assert ((i, u) ∈ filter (fun p : Z * User => email p.2 = e) (map_to_list us)) as Hin.
    { rewrite Hf. apply elem_of_cons. by left. }
    apply list_elem_of_filter in Hin as [He Hin]. apply elem_of_map_to_list in Hin.
    by destruct (H i u Hin).
Qed.

(** The row of a new user is the one found under its email when nobody
    else has that email. *)
Lemma find_by_email_inserted e us id u :
  Auth.find_by_email e us = None -> us !! id = None -> email u = e ->
  Auth.find_by_email e (<[id := u]> us) = Some (id, u).
Proof.
  intros Hnone Hfree He.
  destruct (Auth.find_by_email e (<[id := u]> us)) as [[j u']|] eqn:Hf.
  - apply find_by_email_Some in Hf as [Hj He'].
    apply lookup_insert_Some in Hj as [[<- <-]|[_ Hj]]; [done|].
    by destruct (proj1 (find_by_email_None e us) Hnone j u' Hj).
  - destruct (proj1 (find_by_email_None e _) Hf id u); [|done].
    by rewrite lookup_insert_eq.
Qed.

End Accounts.

Section Login.

Lemma find_by_email_unique e us id u :
  unique_emails us -> us !! id = Some u -> email u = e ->
  Auth.find_by_email e us = Some (id, u).
Proof.
  intros Huniq Hid He.
  destruct (Auth.find_by_email e us) as [[j u']|] eqn:Hf.
  - apply find_by_email_Some in Hf as [Hj He'].
    assert (j = id) as -> by (eapply Huniq; eauto; congruence).
    congruence.
  - by destruct (proj1 (find_by_email_None e us) Hf id u).
Qed.

Lemma register_stores_defaults_aux c req a h :
  Auth.bcrypt_hash c (Auth.Register.password req) = Some h ->
  Auth.find_by_email (Auth.Register.email req) (users (Auth.db a)) = None ->
  users (Auth.db a) !! (Auth.users_id_seq a + 1) = None ->
  users (Auth.db (Auth.register c req a).2) !! (Auth.users_id_seq a + 1)
  = Some (mkUser (Auth.Register.email req) "user" 0)
  /\ services (Auth.db (Auth.register c req a).2) = services (Auth.db a).
Proof.
  intros Hh Hfree Hid. unfold Auth.register.
  rewrite Hh, !bool_decide_eq_true_2 by done. simpl.
  by rewrite lookup_insert_eq.
Qed.

End Login.

(** X24: a registration stores the user with role user and balance zero,
    the column defaults, whatever the body carries, under the next id of the
    sequence, with the hash the library returned; it answers with that id
    and the email, and leaves every other user, the services, top-ups and
    orders as they were. *)
Theorem register_stores_defaults c req a h :
  Auth.bcrypt_hash c (Auth.Register.password req) = Some h ->
  Auth.find_by_email (Auth.Register.email req) (users (Auth.db a)) = None ->
  users (Auth.db a) !! (Auth.users_id_seq a + 1) = None ->
  let id := Auth.users_id_seq a + 1 in
  let a' := (Auth.register c req a).2 in
  (Auth.register c req a).1 = Some (Auth.JsonUser id (Auth.Register.email req))
  /\ users (Auth.db a') !! id = Some (mkUser (Auth.Register.email req) "user" 0)
  /\ Auth.password_hash a' !! id = Some h
  /\ (forall j, j <> id -> users (Auth.db a') !! j = users (Auth.db a) !! j)
  /\ services (Auth.db a') = services (Auth.db a)
  /\ topups (Auth.db a') = topups (Auth.db a)
  /\ orders (Auth.db a') = orders (Auth.db a).
Proof.
  intros Hh Hfree Hid id a'. subst id a'. unfold Auth.register.
  rewrite Hh, !bool_decide_eq_true_2 by done. simpl.
  repeat split; try (by rewrite lookup_insert_eq).
  intros j Hj. by rewrite lookup_insert_ne.
Qed.

Lemma register_stores_defaults_witness :
  users (Auth.db (Auth.register sample_crypto
                    (Auth.Register.mk "b@example.com" None "secret") sample_accounts).2) !! 2
  = Some (mkUser "b@example.com" "user" 0).
Proof.
  destruct (register_stores_defaults sample_crypto
              (Auth.Register.mk "b@example.com" None "secret") sample_accounts
              "$2b$10$h" eq_refl) as (_ & H & _); [by vm_compute|reflexivity|exact H].
Defined.

(** X25: a registration with an email that a stored user already has is
    refused by the UNIQUE constraint: the handler throws, no user and no hash
    is stored, and only the id sequence has moved. *)
Theorem register_taken_email_stores_nothing c req a i u h :
  Auth.bcrypt_hash c (Auth.Register.password req) = Some h ->
  users (Auth.db a) !! i = Some u -> email u = Auth.Register.email req ->
  (Auth.register c req a).1 = None
  /\ Auth.db (Auth.register c req a).2 = Auth.db a
  /\ Auth.password_hash (Auth.register c req a).2 = Auth.password_hash a
  /\ Auth.users_id_seq (Auth.register c req a).2 = Auth.users_id_seq a + 1.
Proof.
  intros Hh Hi He. unfold Auth.register. rewrite Hh.
  rewrite (bool_decide_eq_false_2 (Auth.find_by_email _ _ = None)); [done|].
  intros Hnone. by destruct (proj1 (find_by_email_None _ _) Hnone i u Hi).
Qed.

Lemma register_taken_email_stores_nothing_witness :
  (Auth.register sample_crypto (Auth.Register.mk "a@example.com" None "x")
                 sample_accounts).1 = None
  /\ Auth.db (Auth.register sample_crypto (Auth.Register.mk "a@example.com" None "x")
                            sample_accounts).2 = shop.
Proof.
  destruct (register_taken_email_stores_nothing sample_crypto
              (Auth.Register.mk "a@example.com" None "x") sample_accounts 1
              (mkUser "a@example.com" "user" 1000) "$2b$10$h" eq_refl eq_refl eq_refl)
    as (H1 & H2 & _).
  by split.
Defined.

(** X26: registrations keep the emails of the stored users pairwise
    distinct. *)
Theorem register_keeps_emails_unique c req a :
  unique_emails (users (Auth.db a)) ->
  unique_emails (users (Auth.db (Auth.register c req a).2)).
Proof.
  intros Huniq. unfold Auth.register.
  destruct (Auth.bcrypt_hash c _) as [h|]; [|done].
  destruct (bool_decide (Auth.find_by_email _ _ = None)) eqn:Hf; simpl; [|done].
  destruct (bool_decide (users _ !! _ = None)) eqn:Hid; simpl; [|done].
  apply bool_decide_eq_true in Hf. apply bool_decide_eq_true in Hid.
  pose proof (proj1 (find_by_email_None _ _) Hf) as Hnone.
  intros i j u v.
  intros [[<- <-]|[Hi Hu]]%lookup_insert_Some [[<- <-]|[Hj Hv]]%lookup_insert_Some He;
    simpl in *; try done.
  - by destruct (Hnone j v Hv).
  - by destruct (Hnone i u Hu).
  - by eapply Huniq.
Qed.

Lemma register_keeps_emails_unique_witness :
  unique_emails (users (Auth.db (Auth.register sample_crypto
                                   (Auth.Register.mk "b@example.com" None "secret")
                                   sample_accounts).2)).
Proof.
  apply register_keeps_emails_unique.
  intros i j u v. unfold sample_accounts, shop. cbn [Auth.db users].
  by intros [<- _]%lookup_singleton_Some [<- _]%lookup_singleton_Some _.
Defined.

(** X27: a registered user can log in. After a registration has gone
    through, a login with the same email, with a password the library
    accepts against the stored hash and with a signing call that answers,
    returns the token signed over the new id and the role user. *)
Theorem register_then_login c c' req a h pw tok :
  Auth.bcrypt_hash c (Auth.Register.password req) = Some h ->
  Auth.find_by_email (Auth.Register.email req) (users (Auth.db a)) = None ->
  users (Auth.db a) !! (Auth.users_id_seq a + 1) = None ->
  Auth.bcrypt_compare c' pw h = Some true ->
  Auth.jwt_sign c' (Auth.users_id_seq a + 1) "user" = Some tok ->
  Auth.login c' (Auth.Login.mk (Auth.Register.email req) pw) (Auth.register c req a).2
  = Some (Auth.JsonToken tok).
Proof.
  intros Hh Hfree Hid Hcmp Hsign. unfold Auth.register.
  rewrite Hh, !bool_decide_eq_true_2 by done. unfold Auth.login. cbn.
  rewrite (find_by_email_inserted (Auth.Register.email req) _ _
             (mkUser (Auth.Register.email req) "user" 0) Hfree Hid eq_refl).
  rewrite lookup_insert_eq, Hcmp. cbn. by rewrite Hsign.
Qed.

Lemma register_then_login_witness :
  Auth.login sample_crypto (Auth.Login.mk "b@example.com" "secret")
    (Auth.register sample_crypto (Auth.Register.mk "b@example.com" None "secret")
                   sample_accounts).2
  = Some (Auth.JsonToken "user").
Proof.
  apply (register_then_login sample_crypto sample_crypto
           (Auth.Register.mk "b@example.com" None "secret") sample_accounts
           "$2b$10$h" "secret" "user"); reflexivity.
Defined.

(** X28: the login route tells its two refusals apart. It answers 401 user
    not found exactly when no stored user has the email; when a stored user
    has it (emails being distinct) and the library rejects the password
    against that user's hash, it answers 401 wrong password. *)
Theorem login_refusals c req a :
  (Auth.login c req a = Some (Auth.Unauthorized "user not found")
   <-> forall i u, users (Auth.db a) !! i = Some u -> email u <> Auth.Login.email req)
  /\ (forall i u h,
        unique_emails (users (Auth.db a)) ->
        users (Auth.db a) !! i = Some u -> email u = Auth.Login.email req ->
        Auth.password_hash a !! i = Some h ->
        Auth.bcrypt_compare c (Auth.Login.password req) h = Some false ->
        Auth.login c req a = Some (Auth.Unauthorized "wrong password")).
Proof.
  split.
  - rewrite <- find_by_email_None. unfold Auth.login.
    destruct (Auth.find_by_email _ _) as [[i u]|]; [|done].
    split; [|done].
    destruct (Auth.password_hash a !! i) as [h|]; [|done].
    destruct (Auth.bcrypt_compare c _ h) as [[]|]; try done.
    by destruct (Auth.jwt_sign c i (role u)).
  - intros i u h Huniq Hi He Hh Hcmp. unfold Auth.login.
    by rewrite (find_by_email_unique _ _ i u Huniq Hi He), Hh, Hcmp.
Qed.

Lemma login_refusals_witness :
  Auth.login sample_crypto (Auth.Login.mk "nobody@example.com" "secret") sample_accounts
  = Some (Auth.Unauthorized "user not found")
  /\ Auth.login sample_crypto (Auth.Login.mk "a@example.com" "guess") sample_accounts
     = Some (Auth.Unauthorized "wrong password").
Proof.
  split.
  - apply (proj1 (login_refusals sample_crypto
                    (Auth.Login.mk "nobody@example.com" "secret") sample_accounts)).
    intros i u. unfold sample_accounts, shop. cbn [Auth.db users].
    by intros [_ <-]%lookup_singleton_Some.
  - apply (proj2 (login_refusals sample_crypto
                    (Auth.Login.mk "a@example.com" "guess") sample_accounts)
             1 (mkUser "a@example.com" "user" 1000) "$2b$10$old");
      try reflexivity.
    intros i j u v. unfold sample_accounts, shop. cbn [Auth.db users].
    by intros [<- _]%lookup_singleton_Some [<- _]%lookup_singleton_Some _.
Defined.

(** X29: a token is issued only for a stored user with the email of the
    request whose stored hash the library accepts the password against, and
    it is the token signed over that user's id and stored role. *)
Theorem login_token_is_for_a_stored_user c req a tok :
  Auth.login c req a = Some (Auth.JsonToken tok) ->
  exists i u h,
    users (Auth.db a) !! i = Some u /\ email u = Auth.Login.email req
    /\ Auth.password_hash a !! i = Some h
    /\ Auth.bcrypt_compare c (Auth.Login.password req) h = Some true
    /\ Auth.jwt_sign c i (role u) = Some tok.
Proof.
  unfold Auth.login.
  destruct (Auth.find_by_email _ _) as [[i u]|] eqn:Hf; [|done].
  apply find_by_email_Some in Hf as [Hi He].
  destruct (Auth.password_hash a !! i) as [h|] eqn:Hh; [|done].
  destruct (Auth.bcrypt_compare c _ h) as [[]|] eqn:Hcmp; try done.
  destruct (Auth.jwt_sign c i (role u)) as [t|] eqn:Hs; [|done].
  intros [= <-]. eauto 10.
Qed.

Lemma login_token_is_for_a_stored_user_witness :
  exists i u, users shop !! i = Some u /\ email u = "a@example.com"%string.
Proof.
  destruct (login_token_is_for_a_stored_user sample_crypto
              (Auth.Login.mk "a@example.com" "secret") sample_accounts "user")
    as (i & u & h & Hi & He & _); [by vm_compute|].
  by exists i, u.
Defined.

(** X30: a user who has just registered cannot buy a service with a
    positive price: the balance is the default zero, so the buy is answered
    402 insufficient balance and changes nothing. *)
Theorem new_user_cannot_buy c up req a h sid s :
  Auth.bcrypt_hash c (Auth.Register.password req) = Some h ->
  Auth.find_by_email (Auth.Register.email req) (users (Auth.db a)) = None ->
  users (Auth.db a) !! (Auth.users_id_seq a + 1) = None ->
  services (Auth.db a) !! sid = Some s ->
  0 < s_price s ->
  let db' := Auth.db (Auth.register c req a).2 in
  run up (orders_buy (Buy.mk (Auth.users_id_seq a + 1) sid)) db'
  = mkOutcome (Some insufficient) db'
      [SelectService sid; SelectWalletBalance (Auth.users_id_seq a + 1)].
Proof.
  intros Hh Hfree Hid Hs Hpos db'. subst db'.
  destruct (register_stores_defaults_aux c req a h Hh Hfree Hid) as (Hu & Hsv).
  apply (buy_insufficient up (Buy.mk (Auth.users_id_seq a + 1) sid) _ s 0); simpl;
    [by rewrite Hsv| |done].
  unfold balance. by rewrite Hu.
Qed.

Lemma new_user_cannot_buy_witness :
  response (run answering (orders_buy (Buy.mk 2 7))
              (Auth.db (Auth.register sample_crypto
                          (Auth.Register.mk "b@example.com" None "secret")
                          sample_accounts).2))
  = Some insufficient.
Proof.
  pose proof (new_user_cannot_buy sample_crypto answering
                (Auth.Register.mk "b@example.com" None "secret") sample_accounts
                "$2b$10$h" 7 (mkService "telegram" "Telegram" "Grizzly" 300 1000 true)
                eq_refl eq_refl eq_refl eq_refl ltac:(simpl; lia)) as H.
  exact (f_equal response H).
Defined.
